(** * ipset.c: netlink message encoding and bounded retry delivery

    A shallow embedding of [src/ipset.c] (apfree_wifidog).  The command
    buffer is a list of bytes, every store into it is range-checked (a
    store outside the 256 bytes is the C program's undefined behaviour and
    shows up here as a fault), and the process-wide state ([errno], the
    static [retries] counter, the datagrams handed to [sendto]) is threaded
    explicitly through the sender. *)

From Stdlib Require Import String Ascii.
From Stdlib Require Import ZArith List Lia Bool.
Import ListNotations.
Local Open Scope Z_scope.

(** ** Constants of ipset.c *)

Definition NFNL_SUBSYS_IPSET : Z := 6.
Definition IPSET_ATTR_ETHER : Z := 17.
Definition IPSET_ATTR_TIMEOUT : Z := 6.
Definition IPSET_ATTR_DATA : Z := 7.
Definition IPSET_ATTR_IP : Z := 1.
Definition IPSET_ATTR_MAC : Z := 4.
Definition IPSET_ATTR_IPADDR_IPV4 : Z := 1.
Definition IPSET_ATTR_IPADDR_IPV6 : Z := 2.
Definition IPSET_ATTR_PROTOCOL : Z := 1.
Definition IPSET_ATTR_SETNAME : Z := 2.
Definition IPSET_CMD_ADD : Z := 9.
Definition IPSET_CMD_DEL : Z := 10.
Definition IPSET_CMD_FLUSH : Z := 4.
Definition IPSET_MAXNAMELEN : Z := 32.
Definition IPSET_PROTOCOL : Z := 6.
Definition NFNETLINK_V0 : Z := 0.
Definition NLA_F_NESTED : Z := Z.shiftl 1 15.
Definition NLA_F_NET_BYTEORDER : Z := Z.shiftl 1 14.
Definition INADDRSZ : Z := 4.
Definition INETHSZ : Z := 6.
Definition BUFF_SZ : Z := 256.

(** Values the file takes from the Linux system headers it includes
    (<linux/netlink.h>, <sys/socket.h>, <errno.h>). *)

Definition AF_INET : Z := 2.
Definition NLM_F_REQUEST : Z := 1.
Definition EINTR : Z := 4.
Definition EAGAIN : Z := 11.
Definition EWOULDBLOCK : Z := 11.
Definition ENAMETOOLONG : Z := 36.

(** [struct nlmsghdr]: nlmsg_len (u32), nlmsg_type (u16), nlmsg_flags (u16),
    nlmsg_seq (u32), nlmsg_pid (u32). *)
Definition sizeof_nlmsghdr : Z := 16.
Definition off_nlmsg_len : Z := 0.
Definition off_nlmsg_type : Z := 4.
Definition off_nlmsg_flags : Z := 6.

(** [struct my_nlattr]: nla_len (u16), nla_type (u16). *)
Definition sizeof_my_nlattr : Z := 4.
Definition off_nla_len : Z := 0.
Definition off_nla_type : Z := 2.

(** [struct my_nfgenmsg]: nfgen_family (u8), version (u8), res_id (be16). *)
Definition sizeof_my_nfgenmsg : Z := 4.
Definition off_nfgen_family : Z := 0.
Definition off_version : Z := 1.
Definition off_res_id : Z := 2.

(** ** Machine integers *)

Definition wrap (bits : Z) (x : Z) : Z := x mod 2 ^ bits.

(** [NL_ALIGN(len)] is [((len)+3) & ~(3)], evaluated in the type of [len]
    after the usual conversions: [bits] is that type's width, 64 for the
    [size_t] operands ([sizeof]) and 32 for [__u32] and [int] ones. *)
Definition NL_ALIGN (bits : Z) (len : Z) : Z :=
  Z.land (wrap bits (len + 3)) (wrap bits (Z.lnot 3)).

(** ** Data passed by the callers *)

(** A [const char *]: [None] is the null pointer, [Some s] points to the
    characters [s], none of them zero, followed by the terminating zero
    byte; so [strlen] is the length of [s]. *)
Definition cstr : Type := option (list Z).

Definition strlen (s : list Z) : Z := Z.of_nat (length s).

(** [struct in_addr]: the four bytes of the address as they lie in memory. *)
Record in_addr : Type := mk_in_addr { ip0 : Z; ip1 : Z; ip2 : Z; ip3 : Z }.

Definition in_addr_bytes (a : in_addr) : list Z := [ip0 a; ip1 a; ip2 a; ip3 a].

(** [struct ether_addr]: [uint8_t ether_addr_octet[6]]. *)
Record ether_addr : Type :=
  mk_ether_addr { eo0 : Z; eo1 : Z; eo2 : Z; eo3 : Z; eo4 : Z; eo5 : Z }.

Definition ether_addr_octet (e : ether_addr) : list Z :=
  [eo0 e; eo1 e; eo2 e; eo3 e; eo4 e; eo5 e].

(** ** The command buffer *)

Inductive fault : Type :=
| BufferOverrun   (* an access outside [char buffer[BUFF_SZ]] *)
| SourceOverrun   (* memcpy reads past the end of its source object *)
| NullPointer.    (* a null pointer is dereferenced *)

Inductive res (A : Type) : Type :=
| Ok (a : A)
| Fault (f : fault).
Arguments Ok {A} a.
Arguments Fault {A} f.

(** The buffer under construction and, in program order, the (offset, size)
    of every store made into it. *)
Record mem : Type := mkMem { buf : list Z; stores : list (Z * Z) }.

Definition M (A : Type) : Type := mem -> res (A * mem).

Definition ret {A} (a : A) : M A := fun m => Ok (a, m).

Definition bind {A B} (c : M A) (k : A -> M B) : M B :=
  fun m => match c m with
           | Ok (a, m') => k a m'
           | Fault f => Fault f
           end.

Notation "x <- c ;; k" := (bind c (fun x => k))
  (at level 61, c at next level, right associativity).
Notation "c ;;; k" := (bind c (fun _ => k))
  (at level 61, right associativity).

(** [char buffer[BUFF_SZ] = {0}] *)
Definition zeroed : mem := mkMem (repeat 0 (Z.to_nat BUFF_SZ)) [].

Definition splice (off : nat) (data b : list Z) : list Z :=
  firstn off b ++ data ++ skipn (off + length data) b.

Definition bytes_at (b : list Z) (off : nat) (n : nat) : list Z :=
  map (fun i => nth i b 0) (seq off n).

Definition in_bounds (b : list Z) (off : Z) (n : Z) : bool :=
  (0 <=? off) && (off + n <=? Z.of_nat (length b)).

Definition store_bytes (off : Z) (data : list Z) : M unit :=
  fun m =>
    let n := Z.of_nat (length data) in
    if in_bounds (buf m) off n
    then Ok (tt, mkMem (splice (Z.to_nat off) data (buf m)) (stores m ++ [(off, n)]))
    else Fault BufferOverrun.

Definition load_bytes (off : Z) (n : nat) : M (list Z) :=
  fun m =>
    if in_bounds (buf m) off (Z.of_nat n)
    then Ok (bytes_at (buf m) (Z.to_nat off) n, m)
    else Fault BufferOverrun.

(** [memcpy(dst, src, len)] into the buffer, from a source object [src]. *)
Definition memcpy (off : Z) (src : list Z) (len : Z) : M unit :=
  if (0 <=? len) && (len <=? Z.of_nat (length src))
  then store_bytes off (firstn (Z.to_nat len) src)
  else fun _ => Fault SourceOverrun.

Fixpoint le_bytes (n : nat) (v : Z) : list Z :=
  match n with
  | O => []
  | S k => v mod 256 :: le_bytes k (v / 256)
  end.

Fixpoint le_value (l : list Z) : Z :=
  match l with
  | [] => 0
  | b :: t => b + 256 * le_value t
  end.

(** ** Process state and the socket *)

(** [errno], the static [retries] of retry_send, the datagrams handed to
    [sendto] so far (oldest first), and the environment: [send_env k] is
    what the kernel answers to the [k]-th [sendto] of the process ([None]:
    accepted, [Some e]: refused with [errno = e]), [sleep_env k] what the
    [k]-th [nanosleep] does to [errno] ([None]: it sleeps and returns 0). *)
Record world : Type := mkWorld {
  errno : Z;
  retries : Z;
  sent : list (list Z);
  nsleep : nat;
  send_env : nat -> option Z;
  sleep_env : nat -> option Z
}.

Definition set_errno (e : Z) (w : world) : world :=
  mkWorld e (retries w) (sent w) (nsleep w) (send_env w) (sleep_env w).

Definition set_retries (r : Z) (w : world) : world :=
  mkWorld (errno w) r (sent w) (nsleep w) (send_env w) (sleep_env w).

(** [sendto(ipset_sock, buffer, len, 0, &snl, sizeof(snl))] *)
Definition sendto (buffer : list Z) (len : Z) (w : world) : Z * world :=
  let dgram := firstn (Z.to_nat len) buffer in
  let k := length (sent w) in
  match send_env w k with
  | None =>
      (len, mkWorld (errno w) (retries w) (sent w ++ [dgram]) (nsleep w)
                    (send_env w) (sleep_env w))
  | Some e =>
      (-1, mkWorld e (retries w) (sent w ++ [dgram]) (nsleep w)
                   (send_env w) (sleep_env w))
  end.

Definition nanosleep (w : world) : world :=
  let e' := match sleep_env w (nsleep w) with None => errno w | Some e => e end in
  mkWorld e' (retries w) (sent w) (S (nsleep w)) (send_env w) (sleep_env w).

(** ** retry_send (ipset.c:91-116) *)

Definition retry_send (rc : Z) (w : world) : Z * world :=
  if negb (rc =? -1) then (0, set_errno 0 (set_retries 0 w))
  else
    let blocked := (errno w =? EAGAIN) || (errno w =? EWOULDBLOCK) in
    let w1 := if blocked then nanosleep w else w in
    let r := retries w1 in
    let w2 := if blocked then set_retries (r + 1) w1 else w1 in
    if blocked && (r <? 1000) then (1, w2)
    else
      let w3 := set_retries 0 w2 in
      if errno w3 =? EINTR then (1, w3) else (0, w3).

(** [while (retry_send(sendto(...))) ;] with at most [fuel] calls of
    [sendto]: [Done] when the loop has exited, [More] when it has not. *)
Inductive run : Type :=
| Done (w : world)
| More (w : world).

Fixpoint send_loop (fuel : nat) (buffer : list Z) (len : Z) (w : world) : run :=
  match fuel with
  | O => More w
  | S k =>
      let (rc, w1) := sendto buffer len w in
      let (again, w2) := retry_send rc w1 in
      if again =? 0 then Done w2 else send_loop k buffer len w2
  end.

Inductive outcome : Type :=
| Returns (rc : Z) (w : world)
| Crashes (f : fault) (w : world)
| Spins (w : world).

Section Target.

(** Byte order of the machine the program runs on: the header fields are
    stored in native order. *)
Variable big_endian : bool.

Definition encode (n : nat) (v : Z) : list Z :=
  if big_endian then rev (le_bytes n v) else le_bytes n v.

Definition decode (l : list Z) : Z :=
  if big_endian then le_value (rev l) else le_value l.

Definition htons (v : Z) : Z :=
  if big_endian then wrap 16 v else (v mod 256) * 256 + (v / 256) mod 256.

(** Reading a field of [n] bytes at [off] out of a buffer. *)
Definition field (n : nat) (b : list Z) (off : Z) : Z :=
  decode (bytes_at b (Z.to_nat off) n).

Definition store8 (off v : Z) : M unit := store_bytes off (encode 1 v).
Definition store16 (off v : Z) : M unit := store_bytes off (encode 2 v).
Definition store32 (off v : Z) : M unit := store_bytes off (encode 4 v).
Definition load16 (off : Z) : M Z :=
  l <- load_bytes off 2 ;; ret (decode l).
Definition load32 (off : Z) : M Z :=
  l <- load_bytes off 4 ;; ret (decode l).

(** [nlh->nlmsg_len], with [nlh = (struct nlmsghdr * )buffer]. *)
Definition get_nlmsg_len : M Z := load32 off_nlmsg_len.
Definition set_nlmsg_len (v : Z) : M unit := store32 off_nlmsg_len v.
Definition nlmsg_len (b : list Z) : Z := field 4 b off_nlmsg_len.

(** ** add_attr (ipset.c:119-127) *)

Definition add_attr (type : Z) (len : Z) (data : list Z) : M unit :=
  l <- get_nlmsg_len ;;
  let attr := NL_ALIGN 32 l in
  let payload_len := wrap 16 (NL_ALIGN 64 sizeof_my_nlattr + len) in
  store16 (attr + off_nla_type) type ;;;
  store16 (attr + off_nla_len) payload_len ;;;
  memcpy (attr + NL_ALIGN 64 sizeof_my_nlattr) data len ;;;
  l' <- get_nlmsg_len ;;
  set_nlmsg_len (wrap 32 (l' + NL_ALIGN 32 payload_len)).

(** [nlh->nlmsg_len += x] *)
Definition add_nlmsg_len (x : Z) : M unit :=
  l <- get_nlmsg_len ;; set_nlmsg_len (wrap 32 (l + x)).

(** ** The three builders: the part of each function that fills the buffer *)

(** new_add_to_ipset, ipset.c:153-177.  The result is the pair of recorded
    frame starts, [nested[0]] and [nested[1]], as offsets into the buffer. *)
Definition new_add_to_ipset_fill (setname : list Z) (ipaddr : in_addr)
  (af remove : Z) : M (Z * Z) :=
  set_nlmsg_len (NL_ALIGN 64 sizeof_nlmsghdr) ;;;
  store16 off_nlmsg_type
    (Z.lor (if remove =? 0 then IPSET_CMD_ADD else IPSET_CMD_DEL)
           (Z.shiftl NFNL_SUBSYS_IPSET 8)) ;;;
  store16 off_nlmsg_flags NLM_F_REQUEST ;;;
  nfg <- get_nlmsg_len ;;
  add_nlmsg_len (NL_ALIGN 64 sizeof_my_nfgenmsg) ;;;
  store8 (nfg + off_nfgen_family) af ;;;
  store8 (nfg + off_version) NFNETLINK_V0 ;;;
  store16 (nfg + off_res_id) (htons 0) ;;;
  let proto := wrap 8 IPSET_PROTOCOL in
  add_attr IPSET_ATTR_PROTOCOL 1 [proto] ;;;
  add_attr IPSET_ATTR_SETNAME (strlen setname + 1) (setname ++ [0]) ;;;
  l0 <- get_nlmsg_len ;;
  let nested0 := NL_ALIGN 32 l0 in
  add_nlmsg_len (NL_ALIGN 64 sizeof_my_nlattr) ;;;
  store16 (nested0 + off_nla_type) (Z.lor NLA_F_NESTED IPSET_ATTR_DATA) ;;;
  l1 <- get_nlmsg_len ;;
  let nested1 := NL_ALIGN 32 l1 in
  add_nlmsg_len (NL_ALIGN 64 sizeof_my_nlattr) ;;;
  store16 (nested1 + off_nla_type) (Z.lor NLA_F_NESTED IPSET_ATTR_IP) ;;;
  add_attr
    (Z.lor (if af =? AF_INET then IPSET_ATTR_IPADDR_IPV4 else IPSET_ATTR_IPADDR_IPV6)
           NLA_F_NET_BYTEORDER)
    INADDRSZ (in_addr_bytes ipaddr) ;;;
  e1 <- get_nlmsg_len ;;
  store16 (nested1 + off_nla_len) (wrap 16 (NL_ALIGN 32 e1 - nested1)) ;;;
  e0 <- get_nlmsg_len ;;
  store16 (nested0 + off_nla_len) (wrap 16 (NL_ALIGN 32 e0 - nested0)) ;;;
  ret (nested0, nested1).

(** new_add_mac_to_ipset, ipset.c:199-213.  [timeout] is a parameter of the
    C function that its body never reads. *)
Definition new_add_mac_to_ipset_fill (setname : list Z) (eth_addr : ether_addr)
  (af timeout : Z) : M unit :=
  set_nlmsg_len (NL_ALIGN 64 sizeof_nlmsghdr) ;;;
  store16 off_nlmsg_type (Z.lor IPSET_CMD_ADD (Z.shiftl NFNL_SUBSYS_IPSET 8)) ;;;
  store16 off_nlmsg_flags NLM_F_REQUEST ;;;
  nfg <- get_nlmsg_len ;;
  add_nlmsg_len (NL_ALIGN 64 sizeof_my_nfgenmsg) ;;;
  store8 (nfg + off_nfgen_family) af ;;;
  store8 (nfg + off_version) NFNETLINK_V0 ;;;
  store16 (nfg + off_res_id) (htons 0) ;;;
  let proto := wrap 8 IPSET_PROTOCOL in
  add_attr IPSET_ATTR_PROTOCOL 1 [proto] ;;;
  add_attr IPSET_ATTR_SETNAME (strlen setname + 1) (setname ++ [0]) ;;;
  add_attr IPSET_ATTR_ETHER INETHSZ (ether_addr_octet eth_addr).

(** flush_ipset, ipset.c:234-247. *)
Definition flush_ipset_fill (setname : list Z) : M unit :=
  set_nlmsg_len (NL_ALIGN 64 sizeof_nlmsghdr) ;;;
  store16 off_nlmsg_type (Z.lor IPSET_CMD_FLUSH (Z.shiftl NFNL_SUBSYS_IPSET 8)) ;;;
  store16 off_nlmsg_flags NLM_F_REQUEST ;;;
  nfg <- get_nlmsg_len ;;
  add_nlmsg_len (NL_ALIGN 64 sizeof_my_nfgenmsg) ;;;
  store8 (nfg + off_nfgen_family) AF_INET ;;;
  store8 (nfg + off_version) NFNETLINK_V0 ;;;
  store16 (nfg + off_res_id) (htons 0) ;;;
  let proto := wrap 8 IPSET_PROTOCOL in
  add_attr IPSET_ATTR_PROTOCOL 1 [proto] ;;;
  add_attr IPSET_ATTR_SETNAME (strlen setname + 1) (setname ++ [0]).

(** ** The entry points

    The calls of [debug] only log and are left out. *)

(** [return errno == 0 ? 0 : -1;] after the loop *)
Definition finish (r : run) : outcome :=
  match r with
  | Done w => Returns (if errno w =? 0 then 0 else -1) w
  | More w => Spins w
  end.

Definition transmit (fuel : nat) (filled : res (unit * mem)) (w : world) : outcome :=
  match filled with
  | Fault f => Crashes f w
  | Ok (_, m) => finish (send_loop fuel (buf m) (nlmsg_len (buf m)) w)
  end.

(** ipset.c:138-183 *)
Definition new_add_to_ipset (fuel : nat) (setname : cstr) (ipaddr : in_addr)
  (af remove : Z) (w : world) : outcome :=
  match setname with
  | None => Crashes NullPointer w
  | Some s =>
      if strlen s >=? IPSET_MAXNAMELEN
      then Returns (-1) (set_errno ENAMETOOLONG w)
      else transmit fuel
             ((new_add_to_ipset_fill s ipaddr af remove ;;; ret tt) zeroed) w
  end.

(** ipset.c:185-220 *)
Definition new_add_mac_to_ipset (fuel : nat) (setname : cstr)
  (eth_addr : ether_addr) (af timeout : Z) (w : world) : outcome :=
  match setname with
  | None => Crashes NullPointer w
  | Some s =>
      if strlen s >=? IPSET_MAXNAMELEN
      then Returns (-1) (set_errno ENAMETOOLONG w)
      else transmit fuel (new_add_mac_to_ipset_fill s eth_addr af timeout zeroed) w
  end.

(** ipset.c:222-255 *)
Definition flush_ipset (fuel : nat) (setname : cstr) (w : world) : outcome :=
  match setname with
  | None => Returns (-1) (set_errno ENAMETOOLONG w)
  | Some s =>
      if strlen s >=? IPSET_MAXNAMELEN
      then Returns (-1) (set_errno ENAMETOOLONG w)
      else transmit fuel (flush_ipset_fill s zeroed) w
  end.

Section Dispatcher.

(** The validators and parsers of util.c and libc that add_to_ipset calls. *)
Variable is_valid_ip : cstr -> bool.
Variable inet_aton : cstr -> option in_addr.
Variable is_valid_mac : cstr -> bool.
Variable ether_aton : cstr -> option ether_addr.

(** ipset.c:257-277 *)
Definition add_to_ipset (fuel : nat) (setname val : cstr) (flag : Z) (w : world)
  : outcome :=
  let af := AF_INET in
  if is_valid_ip val then
    match inet_aton val with
    | None => Returns (-1) w
    | Some addr => new_add_to_ipset fuel setname addr af flag w
    end
  else if is_valid_mac val then
    match ether_aton val with
    | None => Returns (-1) w
    | Some addr => new_add_mac_to_ipset fuel setname addr af flag w
    end
  else Returns (-1) w.

End Dispatcher.

End Target.

(** ** Observing a run *)

Definition run_world (r : run) : world :=
  match r with Done w | More w => w end.

Definition world_of (o : outcome) : world :=
  match o with Returns _ w | Crashes _ w | Spins w => w end.

(** The datagrams an entry point started in [w] handed to [sendto]. *)
Definition sent_by (w : world) (o : outcome) : list (list Z) :=
  skipn (length (sent w)) (sent (world_of o)).

(** A store recorded in the log lies inside the buffer. *)
Definition store_ok (b : list Z) (st : Z * Z) : bool :=
  in_bounds b (fst st) (snd st).

(** ** Sample inputs, used to run the model *)

Definition text (s : string) : list Z :=
  map (fun a => Z.of_N (N_of_ascii a)) (list_ascii_of_string s).

Fixpoint bytes_eqb (a b : list Z) : bool :=
  match a, b with
  | [], [] => true
  | x :: a', y :: b' => (x =? y) && bytes_eqb a' b'
  | _, _ => false
  end.

Definition ex_setname : list Z := text "blocklist".
Definition ex_long_setname : list Z :=
  text "aVeryLongSetNameThatExceedsThirtyOneCharacters".
Definition ex_ip_text : cstr := Some (text "192.0.2.1").
Definition ex_mac_text : cstr := Some (text "aa:bb:cc:dd:ee:ff").
Definition ex_junk_text : cstr := Some (text "not-an-address").
Definition ex_in_addr : in_addr := mk_in_addr 192 0 2 1.
Definition ex_ether_addr : ether_addr := mk_ether_addr 170 187 204 221 238 255.

Definition same_text (v t : cstr) : bool :=
  match v, t with
  | Some a, Some b => bytes_eqb a b
  | _, _ => false
  end.

(** Validators and parsers that know exactly the two sample values. *)
Definition ex_is_valid_ip (v : cstr) : bool := same_text v ex_ip_text.
Definition ex_inet_aton (v : cstr) : option in_addr :=
  if same_text v ex_ip_text then Some ex_in_addr else None.
Definition ex_is_valid_mac (v : cstr) : bool := same_text v ex_mac_text.
Definition ex_ether_aton (v : cstr) : option ether_addr :=
  if same_text v ex_mac_text then Some ex_ether_addr else None.

(** A kernel that accepts every datagram, and one whose queue is always full. *)
Definition ex_kernel_accepts : world :=
  mkWorld 0 0 [] 0 (fun _ => None) (fun _ => None).
Definition ex_kernel_busy : world :=
  mkWorld 0 0 [] 0 (fun _ => Some EAGAIN) (fun _ => None).

(** A zeroed buffer holding only the two headers: [nlmsg_len] is 20. *)
Definition ex_headers (be : bool) : mem :=
  mkMem (splice 0 (encode be 4 (sizeof_nlmsghdr + sizeof_my_nfgenmsg)) (buf zeroed)) [].

(** What add_to_ipset sends for the sample address. *)
Definition ex_datagram : list Z :=
  hd [] (sent_by ex_kernel_accepts
           (add_to_ipset false ex_is_valid_ip ex_inet_aton ex_is_valid_mac
              ex_ether_aton 1 (Some ex_setname) ex_ip_text 0 ex_kernel_accepts)).

(** ** The netlink wire format, written out *)

(** Zero bytes up to the next 4-byte boundary after [n] bytes. *)
Definition wire_pad (n : Z) : list Z :=
  repeat 0 (Z.to_nat (NL_ALIGN 32 n - n)).

(** One attribute: length (header and payload, padding not counted), type,
    payload, padding. *)
Definition wire_attr (be : bool) (type : Z) (payload : list Z) : list Z :=
  let n := sizeof_my_nlattr + Z.of_nat (length payload) in
  encode be 2 n ++ encode be 2 type ++ payload ++ wire_pad n.

(** A whole message: nlmsghdr (length, command and subsystem, flags, zero
    sequence number and port id), nfgenmsg (family, version, zero resource
    id), attributes. *)
Definition wire_message (be : bool) (cmd family : Z) (attrs : list Z) : list Z :=
  let total := sizeof_nlmsghdr + sizeof_my_nfgenmsg + Z.of_nat (length attrs) in
  encode be 4 total
  ++ encode be 2 (Z.lor cmd (Z.shiftl NFNL_SUBSYS_IPSET 8))
  ++ encode be 2 NLM_F_REQUEST
  ++ repeat 0 8
  ++ encode be 1 family ++ [NFNETLINK_V0] ++ [0; 0]
  ++ attrs.

(** The two attributes every message starts with. *)
Definition wire_common (be : bool) (setname : list Z) : list Z :=
  wire_attr be IPSET_ATTR_PROTOCOL [IPSET_PROTOCOL]
  ++ wire_attr be IPSET_ATTR_SETNAME (setname ++ [0]).

Definition wire_flush (be : bool) (setname : list Z) : list Z :=
  wire_message be IPSET_CMD_FLUSH AF_INET (wire_common be setname).

Definition wire_mac (be : bool) (setname : list Z) (eth : ether_addr) (af : Z)
  : list Z :=
  wire_message be IPSET_CMD_ADD af
    (wire_common be setname
     ++ wire_attr be IPSET_ATTR_ETHER (ether_addr_octet eth)).

Definition wire_addr (be : bool) (setname : list Z) (ip : in_addr) (af remove : Z)
  : list Z :=
  wire_message be (if remove =? 0 then IPSET_CMD_ADD else IPSET_CMD_DEL) af
    (wire_common be setname
     ++ wire_attr be (Z.lor NLA_F_NESTED IPSET_ATTR_DATA)
          (wire_attr be (Z.lor NLA_F_NESTED IPSET_ATTR_IP)
             (wire_attr be
                (Z.lor (if af =? AF_INET then IPSET_ATTR_IPADDR_IPV4
                        else IPSET_ATTR_IPADDR_IPV6) NLA_F_NET_BYTEORDER)
                (in_addr_bytes ip)))).

(** The bytes handed to [sendto]: the first [nlmsg_len] bytes of the buffer. *)
Definition datagram_of (be : bool) (m : mem) : list Z :=
  firstn (Z.to_nat (nlmsg_len be (buf m))) (buf m).

(** ** ipset_init (ipset.c:129-136)

    [socket_rc] is what [socket(AF_NETLINK, SOCK_RAW, NETLINK_NETFILTER)]
    returns and [bind_rc fd] what [bind(fd, &snl, sizeof(snl))] returns.  The
    result holds the return value, the value left in the static [ipset_sock]
    and the system calls made, in order. *)

Inductive syscall : Type :=
| sys_socket
| sys_bind (fd : Z).

Record init_result : Type :=
  mk_init { init_rc : Z; init_sock : Z; init_calls : list syscall }.

Definition ipset_init (socket_rc : Z) (bind_rc : Z -> Z) : init_result :=
  let ipset_sock := socket_rc in
  if negb (ipset_sock =? -1)
  then if negb (bind_rc ipset_sock =? -1)
       then mk_init 1 ipset_sock [sys_socket; sys_bind ipset_sock]
       else mk_init 0 ipset_sock [sys_socket; sys_bind ipset_sock]
  else mk_init 0 ipset_sock [sys_socket].

(** More sample kernels: one that interrupts the first three sends, one that
    interrupts every send, one that refuses with EPERM, one whose queue is
    full twice, and one whose queue is always full while every sleep is
    interrupted. *)
Definition ex_kernel_interrupts_3 : world :=
  mkWorld 0 0 [] 0 (fun k => if (k <? 3)%nat then Some EINTR else None)
          (fun _ => None).
Definition ex_kernel_interrupts : world :=
  mkWorld 0 0 [] 0 (fun _ => Some EINTR) (fun _ => None).
Definition ex_kernel_refuses : world :=
  mkWorld 0 0 [] 0 (fun _ => Some 1) (fun _ => None).
Definition ex_kernel_busy_2 : world :=
  mkWorld 0 0 [] 0 (fun k => if (k <? 2)%nat then Some EWOULDBLOCK else None)
          (fun _ => None).
Definition ex_kernel_busy_signals : world :=
  mkWorld 0 0 [] 0 (fun _ => Some EWOULDBLOCK) (fun _ => Some EINTR).

(** A buffer whose message already ends 4 bytes before the end. *)
Definition ex_nearly_full (be : bool) : mem :=
  mkMem (splice 0 (encode be 4 (BUFF_SZ - 4)) (buf zeroed)) [].

(** * Properties *)

(** ** Byte encoding and the buffer *)

Lemma length_le_bytes n v : length (le_bytes n v) = n.
Proof. revert v; induction n; simpl; intros; [reflexivity | now rewrite IHn]. Qed.

Lemma length_encode be n v : length (encode be n v) = n.
Proof. unfold encode; destruct be; [rewrite length_rev|]; apply length_le_bytes. Qed.

Lemma le_value_le_bytes n v : le_value (le_bytes n v) = v mod 256 ^ Z.of_nat n.
Proof.
  revert v; induction n as [|n IH]; intros v.
  - simpl. now rewrite Z.mod_1_r.
  - cbn [le_bytes le_value]. rewrite IH, Nat2Z.inj_succ, Z.pow_succ_r by lia.
    symmetry. apply Z.rem_mul_r; lia.
Qed.

Lemma decode_encode be n v : decode be (encode be n v) = v mod 256 ^ Z.of_nat n.
Proof.
  unfold decode, encode; destruct be; [rewrite rev_involutive|]; apply le_value_le_bytes.
Qed.

Lemma length_splice off data b :
  (off + length data <= length b)%nat -> length (splice off data b) = length b.
Proof.
  intros H. unfold splice. rewrite !length_app, length_firstn, length_skipn. lia.
Qed.

Lemma nth_splice off data b i :
  (off + length data <= length b)%nat ->
  nth i (splice off data b) 0 =
  if (i <? off)%nat then nth i b 0
  else if (i <? off + length data)%nat then nth (i - off) data 0
  else nth i b 0.
Proof.
  intros H. unfold splice.
  assert (Hf : length (firstn off b) = off) by (rewrite length_firstn; lia).
  destruct (Nat.ltb_spec i off).
  - rewrite app_nth1 by lia. rewrite nth_firstn.
    destruct (Nat.ltb_spec i off); [reflexivity | lia].
  - rewrite app_nth2 by lia. rewrite Hf.
    destruct (Nat.ltb_spec i (off + length data)).
    + rewrite app_nth1 by lia. reflexivity.
    + rewrite app_nth2 by lia. rewrite nth_skipn. f_equal. lia.
Qed.

Lemma length_bytes_at b off n : length (bytes_at b off n) = n.
Proof. unfold bytes_at. now rewrite length_map, length_seq. Qed.

Lemma nth_bytes_at b off n i :
  (i < n)%nat -> nth i (bytes_at b off n) 0 = nth (off + i) b 0.
Proof.
  unfold bytes_at. revert off i; induction n as [|n IH]; intros off i Hi; [lia|].
  cbn [seq map]. destruct i as [|i]; cbn [nth].
  - f_equal; lia.
  - rewrite IH by lia. f_equal; lia.
Qed.

Lemma bytes_at_splice_same off data b :
  (off + length data <= length b)%nat ->
  bytes_at (splice off data b) off (length data) = data.
Proof.
  intros H. apply nth_ext with (d := 0) (d' := 0).
  - apply length_bytes_at.
  - intros i Hi. rewrite length_bytes_at in Hi.
    rewrite nth_bytes_at, nth_splice by lia.
    destruct (Nat.ltb_spec (off + i) off); [lia|].
    destruct (Nat.ltb_spec (off + i) (off + length data)); [|lia].
    f_equal; lia.
Qed.

Lemma bytes_at_splice_other off data b o n :
  (off + length data <= length b)%nat ->
  (o + n <= off \/ off + length data <= o)%nat ->
  bytes_at (splice off data b) o n = bytes_at b o n.
Proof.
  intros H D. unfold bytes_at. apply map_ext_in. intros i Hi.
  apply in_seq in Hi. rewrite nth_splice by lia.
  destruct (Nat.ltb_spec i off); [reflexivity|].
  destruct (Nat.ltb_spec i (off + length data)); [lia | reflexivity].
Qed.

Lemma NL_ALIGN_div bits x :
  2 <= bits -> NL_ALIGN bits x = 4 * (wrap bits (x + 3) / 4).
Proof.
  intros Hb. unfold NL_ALIGN.
  set (a := wrap bits (x + 3)).
  assert (Ha : 0 <= a < 2 ^ bits) by (apply Z.mod_pos_bound; lia).
  unfold wrap at 1. rewrite <- Z.land_ones by lia.
  rewrite Z.land_assoc, <- Z.ldiff_land.
  change 3 with (Z.ones 2). rewrite Z.ldiff_ones_r by lia.
  rewrite Z.land_ones by lia.
  rewrite Z.shiftr_div_pow2, Z.shiftl_mul_pow2 by lia.
  change (2 ^ 2) with 4.
  rewrite Z.mod_small; [lia|].
  pose proof (Z.mul_div_le a 4). pose proof (Z.div_pos a 4). lia.
Qed.

Lemma NL_ALIGN_bounds bits x :
  2 <= bits -> 0 <= x <= 2 ^ bits - 4 ->
  NL_ALIGN bits x mod 4 = 0 /\ x <= NL_ALIGN bits x < x + 4.
Proof.
  intros Hb Hx. rewrite NL_ALIGN_div by lia.
  unfold wrap. rewrite (Z.mod_small (x + 3)) by lia.
  split.
  - rewrite Z.mul_comm. apply Z.mod_mul. lia.
  - pose proof (Z.div_mod (x + 3) 4 ltac:(lia)).
    pose proof (Z.mod_pos_bound (x + 3) 4 ltac:(lia)). lia.
Qed.

Lemma in_bounds_true b off n :
  0 <= off -> off + n <= Z.of_nat (length b) -> in_bounds b off n = true.
Proof. intros. unfold in_bounds. apply andb_true_intro; split; lia. Qed.

Lemma field_splice_same be n v b off :
  0 <= off -> off + Z.of_nat n <= Z.of_nat (length b) ->
  field be n (splice (Z.to_nat off) (encode be n v) b) off = v mod 256 ^ Z.of_nat n.
Proof.
  intros H0 H1. unfold field.
  rewrite <- (length_encode be n v) at 2.
  rewrite bytes_at_splice_same by (rewrite ?length_encode; lia).
  apply decode_encode.
Qed.

Lemma field_splice_other be n b off data o :
  0 <= off -> off + Z.of_nat (length data) <= Z.of_nat (length b) -> 0 <= o ->
  o + Z.of_nat n <= off \/ off + Z.of_nat (length data) <= o ->
  field be n (splice (Z.to_nat off) data b) o = field be n b o.
Proof.
  intros H0 H1 H2 D. unfold field. now rewrite bytes_at_splice_other by lia.
Qed.

Lemma store_bytes_Ok off data m :
  0 <= off -> off + Z.of_nat (length data) <= Z.of_nat (length (buf m)) ->
  store_bytes off data m =
  Ok (tt, mkMem (splice (Z.to_nat off) data (buf m))
                (stores m ++ [(off, Z.of_nat (length data))])).
Proof. intros. unfold store_bytes. now rewrite in_bounds_true. Qed.

Lemma get_nlmsg_len_Ok be m :
  4 <= Z.of_nat (length (buf m)) ->
  get_nlmsg_len be m = Ok (nlmsg_len be (buf m), m).
Proof.
  intros. unfold get_nlmsg_len, load32, bind, load_bytes, off_nlmsg_len.
  rewrite in_bounds_true by (simpl; lia). reflexivity.
Qed.

Lemma add_attr_spec be type len data m :
  length (buf m) = Z.to_nat BUFF_SZ ->
  let attr := NL_ALIGN 32 (nlmsg_len be (buf m)) in
  sizeof_my_nlattr <= attr ->
  attr + sizeof_my_nlattr + len <= BUFF_SZ ->
  0 <= len <= Z.of_nat (length data) ->
  exists m',
    add_attr be type len data m = Ok (tt, m') /\
    length (buf m') = length (buf m) /\
    field be 2 (buf m') (attr + off_nla_len) = sizeof_my_nlattr + len /\
    field be 2 (buf m') (attr + off_nla_type) = wrap 16 type /\
    bytes_at (buf m') (Z.to_nat (attr + sizeof_my_nlattr)) (Z.to_nat len)
      = firstn (Z.to_nat len) data /\
    nlmsg_len be (buf m')
      = wrap 32 (nlmsg_len be (buf m) + NL_ALIGN 32 (sizeof_my_nlattr + len)) /\
    stores m' = stores m ++
      [(attr + off_nla_type, 2); (attr + off_nla_len, 2);
       (attr + sizeof_my_nlattr, len); (off_nlmsg_len, 4)].
Proof.
  intros Hlen attr. unfold sizeof_my_nlattr, BUFF_SZ, off_nla_len, off_nla_type,
    off_nlmsg_len in *. intros Ha Hfit Hl.
  assert (HL : Z.of_nat (length (buf m)) = 256) by (rewrite Hlen; reflexivity).
  set (payload := firstn (Z.to_nat len) data).
  assert (Hp : Z.of_nat (length payload) = len)
    by (unfold payload; rewrite length_firstn; lia).
  set (b1 := splice (Z.to_nat (attr + 2)) (encode be 2 type) (buf m)).
  set (b2 := splice (Z.to_nat (attr + 0)) (encode be 2 (wrap 16 (4 + len))) b1).
  set (b3 := splice (Z.to_nat (attr + 4)) payload b2).
  set (L := nlmsg_len be (buf m)) in *.
  set (b4 := splice (Z.to_nat 0) (encode be 4 (wrap 32 (L + NL_ALIGN 32 (wrap 16 (4 + len))))) b3).
  assert (H1 : length b1 = length (buf m))
    by (apply length_splice; rewrite length_encode; lia).
  assert (H2 : length b2 = length (buf m))
    by (unfold b2; rewrite length_splice; rewrite ?length_encode; lia).
  assert (H3 : length b3 = length (buf m))
    by (unfold b3; rewrite length_splice; lia).
  assert (H4 : length b4 = length (buf m))
    by (unfold b4; rewrite length_splice; rewrite ?length_encode; simpl; lia).
  assert (Hw : wrap 16 (4 + len) = 4 + len) by (apply Z.mod_small; lia).
  assert (HL3 : nlmsg_len be b3 = L).
  { unfold nlmsg_len, off_nlmsg_len, b3.
    rewrite field_splice_other by (rewrite ?H2; lia).
    unfold b2. rewrite field_splice_other by (rewrite ?length_encode, ?H1; lia).
    unfold b1. rewrite field_splice_other by (rewrite ?length_encode; lia).
    reflexivity. }
  exists (mkMem b4 (stores m ++ [(attr + 2, 2); (attr + 0, 2); (attr + 4, len); (0, 4)])).
  split; [|repeat split].
  - unfold add_attr, bind. rewrite get_nlmsg_len_Ok by lia.
    fold L. fold attr.
    unfold store16, off_nla_type, off_nla_len.
    rewrite store_bytes_Ok by (rewrite ?length_encode; lia).
    fold b1.
    rewrite store_bytes_Ok by (rewrite ?length_encode; cbn [buf]; lia).
    cbn [buf stores]. fold b1.
    change (NL_ALIGN 64 sizeof_my_nlattr) with 4. fold b2.
    unfold memcpy.
    replace ((0 <=? len) && (len <=? Z.of_nat (length data))) with true
      by (symmetry; apply andb_true_intro; split; lia).
    fold payload. rewrite store_bytes_Ok by (cbn [buf]; lia).
    cbn [buf stores]. fold b3.
    rewrite get_nlmsg_len_Ok by (cbn [buf]; lia). cbn [buf]. rewrite HL3.
    unfold set_nlmsg_len, store32, off_nlmsg_len. rewrite store_bytes_Ok by (rewrite ?length_encode; cbn [buf]; lia).
    cbn [buf stores]. fold b4.
    rewrite !length_encode, Hp, <- !app_assoc. reflexivity.
  - exact H4.
  - cbn [buf]. unfold b4. rewrite field_splice_other by (rewrite ?length_encode, ?H3; lia).
    unfold b3. rewrite field_splice_other by (rewrite ?H2; lia).
    unfold b2. rewrite field_splice_same by lia. rewrite Hw.
    apply Z.mod_small. change (256 ^ Z.of_nat 2) with 65536. lia.
  - cbn [buf]. unfold b4. rewrite field_splice_other by (rewrite ?length_encode, ?H3; lia).
    unfold b3. rewrite field_splice_other by (rewrite ?H2; lia).
    unfold b2. rewrite field_splice_other by (rewrite ?length_encode, ?H1; lia).
    unfold b1. rewrite field_splice_same by lia. reflexivity.
  - cbn [buf]. unfold b4.
    rewrite bytes_at_splice_other by (rewrite ?length_encode, ?H3; lia).
    unfold b3. fold payload.
    replace (Z.to_nat len) with (length payload) by lia.
    apply bytes_at_splice_same. lia.
  - cbn [buf]. unfold nlmsg_len, b4, off_nlmsg_len.
    rewrite field_splice_same by (rewrite ?H3; lia).
    rewrite Hw. change (256 ^ Z.of_nat 4) with (2 ^ 32). unfold wrap.
    rewrite Zmod_mod. reflexivity.
Qed.

(** ** The sender *)

Lemma sent_retry_send rc w : sent (snd (retry_send rc w)) = sent w.
Proof.
  unfold retry_send, nanosleep, set_errno, set_retries.
  repeat match goal with
         | |- context [if ?c then _ else _] => destruct c
         end; reflexivity.
Qed.

Lemma sent_sendto b len w :
  sent (snd (sendto b len w)) = sent w ++ [firstn (Z.to_nat len) b].
Proof. unfold sendto. destruct (send_env w (length (sent w))); reflexivity. Qed.

Lemma send_loop_sent fuel b len w :
  exists k, (k <= fuel)%nat /\ (fuel <> 0%nat -> k <> 0%nat) /\
    sent (run_world (send_loop fuel b len w))
      = sent w ++ repeat (firstn (Z.to_nat len) b) k.
Proof.
  revert w; induction fuel as [|fuel IH]; intros w.
  - exists 0%nat. cbn. rewrite app_nil_r. repeat split; [lia | congruence].
  - cbn [send_loop].
    pose proof (sent_sendto b len w) as Hs.
    destruct (sendto b len w) as [rc w1]. cbn [snd] in Hs.
    pose proof (sent_retry_send rc w1) as Hr.
    destruct (retry_send rc w1) as [again w2]. cbn [snd] in Hr.
    destruct (again =? 0).
    + exists 1%nat. cbn [run_world repeat]. rewrite Hr, Hs.
      repeat split; lia.
    + destruct (IH w2) as (k & Hk & _ & E). exists (S k).
      rewrite E, Hr, Hs, <- app_assoc. repeat split; lia.
Qed.

Lemma retry_send_stop rc w :
  fst (retry_send rc w) = 0 -> retries (snd (retry_send rc w)) = 0.
Proof.
  unfold retry_send, nanosleep, set_errno, set_retries.
  repeat match goal with
         | |- context [if ?c then _ else _] => destruct c
         end; cbn; congruence.
Qed.

(** Every exit of the loop leaves [retries] at 0: with the static
    initialiser 0, each loop of the process is entered with the counter at 0. *)
Lemma send_loop_done_resets fuel b len w w' :
  send_loop fuel b len w = Done w' -> retries w' = 0.
Proof.
  revert w; induction fuel as [|fuel IH]; intros w; cbn [send_loop];
    [discriminate|].
  destruct (sendto b len w) as [rc w1].
  pose proof (retry_send_stop rc w1) as Hr.
  destruct (retry_send rc w1) as [again w2]. cbn [fst snd] in Hr.
  destruct (Z.eqb_spec again 0) as [->|_].
  - intros [= <-]. now apply Hr.
  - apply IH.
Qed.

Lemma skipn_length_app {A} (l l' : list A) : skipn (length l) (l ++ l') = l'.
Proof. induction l; simpl; auto. Qed.

Lemma sent_by_same w o : sent (world_of o) = sent w -> sent_by w o = [].
Proof. unfold sent_by. intros ->. apply skipn_all. Qed.

Lemma sent_by_transmit be fuel r w :
  match r with
  | Ok (_, m) =>
      exists k, (k <= fuel)%nat /\ (fuel <> 0%nat -> k <> 0%nat) /\
        sent_by w (transmit be fuel r w)
          = repeat (firstn (Z.to_nat (nlmsg_len be (buf m))) (buf m)) k
  | Fault _ => sent_by w (transmit be fuel r w) = []
  end.
Proof.
  destruct r as [[[] m]|f]; cbn [transmit].
  - destruct (send_loop_sent fuel (buf m) (nlmsg_len be (buf m)) w) as (k & Hk & Hk' & E).
    exists k. repeat split; auto. unfold sent_by.
    replace (world_of (finish (send_loop fuel (buf m) (nlmsg_len be (buf m)) w)))
      with (run_world (send_loop fuel (buf m) (nlmsg_len be (buf m)) w))
      by (destruct (send_loop fuel (buf m) (nlmsg_len be (buf m)) w); reflexivity).
    rewrite E. apply skipn_length_app.
  - now apply sent_by_same.
Qed.

Lemma send_loop_blocked_from n : forall fuel b len w,
  (forall k, send_env w k = Some EAGAIN) ->
  (forall k, sleep_env w k = None) ->
  retries w = 1000 - Z.of_nat n -> (n <= 1000)%nat -> (n < fuel)%nat ->
  exists w', send_loop fuel b len w = Done w' /\
    sent w' = sent w ++ repeat (firstn (Z.to_nat len) b) (S n) /\
    retries w' = 0 /\ errno w' = EAGAIN.
Proof.
  induction n as [|n IH]; intros fuel b len w Hsend Hsleep Hr Hn Hf;
    (destruct fuel as [|fuel]; [lia|]);
    cbn [send_loop]; unfold sendto; rewrite Hsend;
    unfold retry_send, nanosleep; cbn -[Z.ltb Z.add Z.of_nat Z.sub]; rewrite Hsleep;
    cbn -[Z.ltb Z.add Z.of_nat Z.sub].
  - rewrite Hr. cbn. eexists; repeat split.
  - rewrite Hr. destruct (Z.ltb_spec (1000 - Z.of_nat (S n)) 1000) as [_|]; [|lia].
    cbn -[Z.add Z.of_nat Z.sub send_loop].
    destruct (IH fuel b len
      (mkWorld EAGAIN (1000 - Z.of_nat (S n) + 1) (sent w ++ [firstn (Z.to_nat len) b])
               (S (nsleep w)) (send_env w) (sleep_env w)))
      as (w' & E & Hs & Hr' & He); cbn [send_env sleep_env retries]; auto; try lia.
    exists w'. split; [exact E|]. cbn [sent] in Hs.
    rewrite Hs, <- app_assoc. repeat split; auto.
Qed.

(** ** The builders, by cases on the length of the set name *)

Ltac name_cases n s H tac :=
  lazymatch n with
  | O => exfalso; unfold strlen, IPSET_MAXNAMELEN in H; cbn [length] in H; lia
  | S ?k =>
      let c := fresh "c" in
      let t := fresh "t" in
      destruct s as [|c t]; [ tac | name_cases k t H tac ]
  end.

Ltac by_name_length be s H :=
  destruct be; name_cases 32%nat s H ltac:(vm_compute; repeat split; reflexivity).

Lemma new_add_to_ipset_fill_spec be s ip af remove :
  strlen s < IPSET_MAXNAMELEN ->
  match new_add_to_ipset_fill be s ip af remove zeroed with
  | Ok ((n0, n1), m) =>
      length (buf m) = Z.to_nat BUFF_SZ /\
      forallb (store_ok (buf m)) (stores m) = true /\
      (nlmsg_len be (buf m) <=? BUFF_SZ) = true /\
      n0 = sizeof_nlmsghdr + sizeof_my_nfgenmsg + 8
           + NL_ALIGN 32 (sizeof_my_nlattr + (strlen s + 1)) /\
      n1 = n0 + sizeof_my_nlattr /\
      (sizeof_nlmsghdr <=? n0) = true /\
      field be 2 (buf m) (n1 + off_nla_len) = NL_ALIGN 32 (nlmsg_len be (buf m)) - n1 /\
      field be 2 (buf m) (n0 + off_nla_len) = NL_ALIGN 32 (nlmsg_len be (buf m)) - n0 /\
      skipn (length (stores m) - 2) (stores m)
        = [(n1 + off_nla_len, 2); (n0 + off_nla_len, 2)]
  | Fault _ => False
  end.
Proof. intros H. by_name_length be s H. Qed.

Lemma new_add_to_ipset_fill_ipv4 be s ip remove :
  strlen s < IPSET_MAXNAMELEN ->
  match new_add_to_ipset_fill be s ip AF_INET remove zeroed with
  | Ok (_, m) =>
      let d := firstn (Z.to_nat (nlmsg_len be (buf m))) (buf m) in
      let a := sizeof_nlmsghdr + sizeof_my_nfgenmsg + 8
               + NL_ALIGN 32 (sizeof_my_nlattr + (strlen s + 1))
               + 2 * sizeof_my_nlattr in
      field be 1 d (sizeof_nlmsghdr + off_nfgen_family) = AF_INET /\
      field be 2 d (a + off_nla_type)
        = Z.lor IPSET_ATTR_IPADDR_IPV4 NLA_F_NET_BYTEORDER /\
      field be 2 d (a + off_nla_len) = sizeof_my_nlattr + INADDRSZ /\
      bytes_at d (Z.to_nat (a + sizeof_my_nlattr)) 4 = in_addr_bytes ip /\
      Z.of_nat (length d) = a + sizeof_my_nlattr + INADDRSZ
  | Fault _ => False
  end.
Proof. intros H. destruct ip. by_name_length be s H. Qed.

Lemma new_add_mac_to_ipset_fill_spec be s eth af timeout :
  strlen s < IPSET_MAXNAMELEN ->
  match new_add_mac_to_ipset_fill be s eth af timeout zeroed with
  | Ok (_, m) =>
      let d := firstn (Z.to_nat (nlmsg_len be (buf m))) (buf m) in
      length (buf m) = Z.to_nat BUFF_SZ /\
      forallb (store_ok (buf m)) (stores m) = true /\
      (nlmsg_len be (buf m) <=? BUFF_SZ) = true /\
      field be 2 (buf m) off_nlmsg_type
        = Z.lor IPSET_CMD_ADD (Z.shiftl NFNL_SUBSYS_IPSET 8) /\
      field be 2 d off_nlmsg_type
        = Z.lor IPSET_CMD_ADD (Z.shiftl NFNL_SUBSYS_IPSET 8)
  | Fault _ => False
  end.
Proof. intros H. destruct eth. by_name_length be s H. Qed.

Lemma new_add_mac_to_ipset_fill_ipv4 be s eth timeout :
  strlen s < IPSET_MAXNAMELEN ->
  match new_add_mac_to_ipset_fill be s eth AF_INET timeout zeroed with
  | Ok (_, m) =>
      let d := firstn (Z.to_nat (nlmsg_len be (buf m))) (buf m) in
      field be 1 d (sizeof_nlmsghdr + off_nfgen_family) = AF_INET
  | Fault _ => False
  end.
Proof. intros H. destruct eth. by_name_length be s H. Qed.

Lemma flush_ipset_fill_spec be s :
  strlen s < IPSET_MAXNAMELEN ->
  match flush_ipset_fill be s zeroed with
  | Ok (_, m) =>
      let d := firstn (Z.to_nat (nlmsg_len be (buf m))) (buf m) in
      length (buf m) = Z.to_nat BUFF_SZ /\
      forallb (store_ok (buf m)) (stores m) = true /\
      (nlmsg_len be (buf m) <=? BUFF_SZ) = true /\
      field be 1 (buf m) (sizeof_nlmsghdr + off_nfgen_family) = AF_INET /\
      field be 1 d (sizeof_nlmsghdr + off_nfgen_family) = AF_INET
  | Fault _ => False
  end.
Proof. intros H. by_name_length be s H. Qed.

Lemma name_check_passes s :
  (strlen s >=? IPSET_MAXNAMELEN) = false <-> strlen s < IPSET_MAXNAMELEN.
Proof. rewrite Z.geb_leb. apply Z.leb_gt. Qed.

Lemma name_check_fails s :
  (strlen s >=? IPSET_MAXNAMELEN) = true <-> IPSET_MAXNAMELEN <= strlen s.
Proof. rewrite Z.geb_leb. apply Z.leb_le. Qed.

Lemma stores_in_buffer m :
  length (buf m) = Z.to_nat BUFF_SZ ->
  forallb (store_ok (buf m)) (stores m) = true ->
  Forall (fun st => 0 <= fst st /\ fst st + snd st <= BUFF_SZ) (stores m).
Proof.
  intros Hl Hs. apply Forall_forall. intros st Hin.
  rewrite forallb_forall in Hs. specialize (Hs st Hin).
  unfold store_ok, in_bounds in Hs. apply andb_prop in Hs. rewrite Hl in Hs.
  change (Z.of_nat (Z.to_nat BUFF_SZ)) with BUFF_SZ in Hs. lia.
Qed.

Lemma sent_by_transmit_Forall be fuel r w (P : list Z -> Prop) :
  (forall u m, r = Ok (u, m) -> P (firstn (Z.to_nat (nlmsg_len be (buf m))) (buf m))) ->
  Forall P (sent_by w (transmit be fuel r w)).
Proof.
  intros HP. pose proof (sent_by_transmit be fuel r w) as H.
  destruct r as [[u m]|f].
  - destruct H as (k & _ & _ & ->). apply Forall_forall. intros d Hd.
    apply repeat_spec in Hd. subst d. now apply (HP u).
  - rewrite H. constructor.
Qed.

(** ** The scenarios of the specification, run on the model *)

Example scenario_A :
  add_to_ipset false ex_is_valid_ip ex_inet_aton ex_is_valid_mac ex_ether_aton
    1 (Some ex_setname) ex_ip_text 0 ex_kernel_accepts
  = Returns 0
      (mkWorld 0 0
         [[60; 0; 0; 0; 9; 6; 1; 0; 0; 0; 0; 0; 0; 0; 0; 0; 2; 0; 0; 0;
           5; 0; 1; 0; 6; 0; 0; 0;
           14; 0; 2; 0; 98; 108; 111; 99; 107; 108; 105; 115; 116; 0; 0; 0;
           16; 0; 7; 128; 12; 0; 1; 128; 8; 0; 1; 64; 192; 0; 2; 1]]
         0 (send_env ex_kernel_accepts) (sleep_env ex_kernel_accepts)).
Proof. reflexivity. Qed.

Example scenario_B :
  sent_by ex_kernel_accepts
    (add_to_ipset false ex_is_valid_ip ex_inet_aton ex_is_valid_mac ex_ether_aton
       1 (Some ex_setname) ex_mac_text 0 ex_kernel_accepts)
  = [[56; 0; 0; 0; 9; 6; 1; 0; 0; 0; 0; 0; 0; 0; 0; 0; 2; 0; 0; 0;
      5; 0; 1; 0; 6; 0; 0; 0;
      14; 0; 2; 0; 98; 108; 111; 99; 107; 108; 105; 115; 116; 0; 0; 0;
      10; 0; 17; 0; 170; 187; 204; 221; 238; 255; 0; 0]].
Proof. reflexivity. Qed.

Example scenario_D :
  flush_ipset false 1 (Some ex_long_setname) ex_kernel_accepts
  = Returns (-1) (set_errno ENAMETOOLONG ex_kernel_accepts).
Proof. reflexivity. Qed.

Example interrupted_send_retried :
  let w := mkWorld 0 0 [] 0
             (fun k => if (k <? 3)%nat then Some EINTR else None) (fun _ => None) in
  match flush_ipset false 10 (Some ex_setname) w with
  | Returns rc w' => rc = 0 /\ length (sent w') = 4%nat /\ retries w' = 0
  | _ => False
  end.
Proof. vm_compute. repeat split. Qed.

(** * The claims *)

(** C1 (as the code has it).  add_attr writes into the attribute header the
    unaligned length, header plus payload; it is the buffer's logical length
    that advances by the 4-byte-aligned value of that length, which is
    congruent to 0 mod 4 and at least the unaligned length. *)
Theorem add_attr_header_length be type len data m :
  length (buf m) = Z.to_nat BUFF_SZ ->
  let attr := NL_ALIGN 32 (nlmsg_len be (buf m)) in
  sizeof_my_nlattr <= attr ->
  attr + sizeof_my_nlattr + len <= BUFF_SZ ->
  0 <= len <= Z.of_nat (length data) ->
  exists m',
    add_attr be type len data m = Ok (tt, m') /\
    field be 2 (buf m') (attr + off_nla_len) = sizeof_my_nlattr + len /\
    let advance := NL_ALIGN 32 (sizeof_my_nlattr + len) in
    nlmsg_len be (buf m') = wrap 32 (nlmsg_len be (buf m) + advance) /\
    advance mod 4 = 0 /\
    sizeof_my_nlattr + len <= advance < sizeof_my_nlattr + len + 4.
Proof.
  intros Hlen attr Ha Hfit Hl.
  destruct (add_attr_spec be type len data m Hlen Ha Hfit Hl)
    as (m' & E & _ & Hn & _ & _ & HL & _).
  exists m'. split; [exact E|]. split; [exact Hn|]. cbv zeta.
  split; [exact HL|].
  apply NL_ALIGN_bounds; unfold sizeof_my_nlattr, BUFF_SZ in *; lia.
Qed.

(** C2.  In the address builder the length backpatched into each of the two
    nested frames is the span from the frame's recorded start to the aligned
    logical length of the buffer, and the inner frame (address, nested[1])
    is closed before the outer one (data, nested[0]): the two backpatches
    are the last two stores of the builder, in that order, both past the
    message header, so nlmsg_len is the same at both closes and at the end. *)
Theorem nested_frames_backpatched be s ip af remove :
  strlen s < IPSET_MAXNAMELEN ->
  exists n0 n1 m,
    new_add_to_ipset_fill be s ip af remove zeroed = Ok ((n0, n1), m) /\
    sizeof_nlmsghdr <= n0 < n1 /\
    field be 2 (buf m) (n1 + off_nla_len) = NL_ALIGN 32 (nlmsg_len be (buf m)) - n1 /\
    field be 2 (buf m) (n0 + off_nla_len) = NL_ALIGN 32 (nlmsg_len be (buf m)) - n0 /\
    skipn (length (stores m) - 2) (stores m)
      = [(n1 + off_nla_len, 2); (n0 + off_nla_len, 2)].
Proof.
  intros H. pose proof (new_add_to_ipset_fill_spec be s ip af remove H) as S.
  destruct (new_add_to_ipset_fill be s ip af remove zeroed) as [[[n0 n1] m]|f];
    [|contradiction].
  destruct S as (_ & _ & _ & _ & Hn1 & Hn0 & H1 & H0 & Hst).
  exists n0, n1, m. apply Z.leb_le in Hn0. unfold sizeof_my_nlattr in Hn1.
  repeat split; auto; lia.
Qed.

(** C3 (as the code has it).  When every send attempt fails with would-block
    and no sleep in between is interrupted, a loop entered with the retry
    counter at 0 makes exactly 1001 send attempts, the first one and 1000
    retries, then gives up with the counter back at 0 and the error left in
    errno. *)
Theorem send_loop_would_block_gives_up fuel b len w :
  (forall k, send_env w k = Some EWOULDBLOCK) ->
  (forall k, sleep_env w k = None) ->
  retries w = 0 ->
  (1001 <= fuel)%nat ->
  exists w',
    send_loop fuel b len w = Done w' /\
    sent w' = sent w ++ repeat (firstn (Z.to_nat len) b) 1001 /\
    retries w' = 0 /\ errno w' = EWOULDBLOCK.
Proof.
  intros Hs Hn Hr Hf.
  apply (send_loop_blocked_from 1000 fuel b len w); auto; try lia.
Qed.

(** C4.  flush_ipset rejects a null set name with ENAMETOOLONG, but
    add_to_ipset hands a null set name to new_add_to_ipset, whose first
    statement is [strlen(setname)]: the null pointer is dereferenced. *)
Theorem apply_null_setname_dereferenced :
  flush_ipset false 1 None ex_kernel_accepts
    = Returns (-1) (set_errno ENAMETOOLONG ex_kernel_accepts) /\
  add_to_ipset false ex_is_valid_ip ex_inet_aton ex_is_valid_mac ex_ether_aton
      1 None ex_ip_text 0 ex_kernel_accepts
    = Crashes NullPointer ex_kernel_accepts /\
  add_to_ipset false ex_is_valid_ip ex_inet_aton ex_is_valid_mac ex_ether_aton
      1 None ex_mac_text 0 ex_kernel_accepts
    = Crashes NullPointer ex_kernel_accepts.
Proof. repeat split. Qed.

(** C5.  In each of the three builders a set name of at most 31 bytes passes
    the check, the message is encoded and handed to the send loop; a set name
    of 32 bytes or more makes the function return -1 with errno set to
    ENAMETOOLONG, and nothing is written to the socket. *)
Theorem set_name_length_check be fuel s ip eth af flag w :
  (strlen s <= 31 ->
   (exists r m,
      new_add_to_ipset_fill be s ip af flag zeroed = Ok (r, m) /\
      new_add_to_ipset be fuel (Some s) ip af flag w
        = finish (send_loop fuel (buf m) (nlmsg_len be (buf m)) w)) /\
   (exists m,
      new_add_mac_to_ipset_fill be s eth af flag zeroed = Ok (tt, m) /\
      new_add_mac_to_ipset be fuel (Some s) eth af flag w
        = finish (send_loop fuel (buf m) (nlmsg_len be (buf m)) w)) /\
   (exists m,
      flush_ipset_fill be s zeroed = Ok (tt, m) /\
      flush_ipset be fuel (Some s) w
        = finish (send_loop fuel (buf m) (nlmsg_len be (buf m)) w))) /\
  (32 <= strlen s ->
   new_add_to_ipset be fuel (Some s) ip af flag w
     = Returns (-1) (set_errno ENAMETOOLONG w) /\
   new_add_mac_to_ipset be fuel (Some s) eth af flag w
     = Returns (-1) (set_errno ENAMETOOLONG w) /\
   flush_ipset be fuel (Some s) w = Returns (-1) (set_errno ENAMETOOLONG w) /\
   sent_by w (Returns (-1) (set_errno ENAMETOOLONG w)) = []).
Proof.
  split; intros H.
  - assert (Hlt : strlen s < IPSET_MAXNAMELEN) by (unfold IPSET_MAXNAMELEN; lia).
    pose proof (proj2 (name_check_passes s) Hlt) as Hc.
    unfold new_add_to_ipset, new_add_mac_to_ipset, flush_ipset. rewrite Hc.
    repeat split.
    + pose proof (new_add_to_ipset_fill_spec be s ip af flag Hlt) as S.
      unfold bind at 1.
      destruct (new_add_to_ipset_fill be s ip af flag zeroed) as [[r m]|f];
        [|contradiction].
      exists r, m. split; reflexivity.
    + pose proof (new_add_mac_to_ipset_fill_spec be s eth af flag Hlt) as S.
      destruct (new_add_mac_to_ipset_fill be s eth af flag zeroed) as [[[] m]|f];
        [|contradiction].
      exists m. split; reflexivity.
    + pose proof (flush_ipset_fill_spec be s Hlt) as S.
      destruct (flush_ipset_fill be s zeroed) as [[[] m]|f]; [|contradiction].
      exists m. split; reflexivity.
  - assert (Hge : IPSET_MAXNAMELEN <= strlen s) by (unfold IPSET_MAXNAMELEN; lia).
    pose proof (proj2 (name_check_fails s) Hge) as Hc.
    unfold new_add_to_ipset, new_add_mac_to_ipset, flush_ipset. rewrite Hc.
    repeat split. now apply sent_by_same.
Qed.

(** C6.  Every datagram flush_ipset hands to the socket has AF_INET in the
    family byte of its sub-header, whatever the set name; and for every set
    name that passes the check such a message is built. *)
Theorem flush_family_is_ipv4 be fuel setname w :
  Forall (fun d => field be 1 d (sizeof_nlmsghdr + off_nfgen_family) = AF_INET)
         (sent_by w (flush_ipset be fuel setname w)) /\
  (forall s, strlen s < IPSET_MAXNAMELEN ->
     exists m, flush_ipset_fill be s zeroed = Ok (tt, m) /\
       field be 1 (buf m) (sizeof_nlmsghdr + off_nfgen_family) = AF_INET).
Proof.
  split.
  - unfold flush_ipset. destruct setname as [s|].
    + destruct (strlen s >=? IPSET_MAXNAMELEN) eqn:Hc.
      * rewrite sent_by_same by reflexivity. constructor.
      * apply name_check_passes in Hc.
        apply sent_by_transmit_Forall. intros u m E.
        pose proof (flush_ipset_fill_spec be s Hc) as S. rewrite E in S.
        apply S.
    + rewrite sent_by_same by reflexivity. constructor.
  - intros s Hc. pose proof (flush_ipset_fill_spec be s Hc) as S.
    destruct (flush_ipset_fill be s zeroed) as [[[] m]|f]; [|contradiction].
    exists m. split; [reflexivity | apply S].
Qed.

(** C7.  The hardware-address builder never reads its timeout parameter:
    the buffer it fills and everything the function does are the same for
    any two values of it; the command code of every datagram it sends is
    IPSET_CMD_ADD combined with the subsystem tag, and such a message is
    built for every set name that passes the check. *)
Theorem mac_builder_always_add be fuel setname eth af timeout w :
  (forall timeout' s,
     new_add_mac_to_ipset_fill be s eth af timeout'
       = new_add_mac_to_ipset_fill be s eth af timeout) /\
  (forall timeout',
     new_add_mac_to_ipset be fuel setname eth af timeout' w
       = new_add_mac_to_ipset be fuel setname eth af timeout w) /\
  Forall (fun d => field be 2 d off_nlmsg_type
                   = Z.lor IPSET_CMD_ADD (Z.shiftl NFNL_SUBSYS_IPSET 8))
         (sent_by w (new_add_mac_to_ipset be fuel setname eth af timeout w)) /\
  (forall s, strlen s < IPSET_MAXNAMELEN ->
     exists m, new_add_mac_to_ipset_fill be s eth af timeout zeroed = Ok (tt, m) /\
       field be 2 (buf m) off_nlmsg_type
         = Z.lor IPSET_CMD_ADD (Z.shiftl NFNL_SUBSYS_IPSET 8)).
Proof.
  split; [reflexivity|]. split; [reflexivity|]. split.
  - unfold new_add_mac_to_ipset. destruct setname as [s|].
    + destruct (strlen s >=? IPSET_MAXNAMELEN) eqn:Hc.
      * rewrite sent_by_same by reflexivity. constructor.
      * apply name_check_passes in Hc.
        apply sent_by_transmit_Forall. intros u m E.
        pose proof (new_add_mac_to_ipset_fill_spec be s eth af timeout Hc) as S.
        rewrite E in S. apply S.
    + rewrite sent_by_same by reflexivity. constructor.
  - intros s Hc.
    pose proof (new_add_mac_to_ipset_fill_spec be s eth af timeout Hc) as S.
    destruct (new_add_mac_to_ipset_fill be s eth af timeout zeroed) as [[[] m]|f];
      [|contradiction].
    exists m. split; [reflexivity | apply S].
Qed.

(** C8.  A value that neither validator accepts makes add_to_ipset return -1
    at once: the process state is left as it was, no message is built and
    nothing is written to the socket. *)
Theorem unclassified_value_rejected
  be is_valid_ip inet_aton is_valid_mac ether_aton fuel setname val flag w :
  is_valid_ip val = false ->
  is_valid_mac val = false ->
  add_to_ipset be is_valid_ip inet_aton is_valid_mac ether_aton
    fuel setname val flag w = Returns (-1) w /\
  sent_by w (add_to_ipset be is_valid_ip inet_aton is_valid_mac ether_aton
               fuel setname val flag w) = [].
Proof.
  intros Hip Hmac. unfold add_to_ipset. rewrite Hip, Hmac.
  split; [reflexivity | now apply sent_by_same].
Qed.

(** C9.  For a set name shorter than IPSET_MAXNAMELEN each of the three
    builders completes without an access outside the buffer: every store it
    makes lies within the BUFF_SZ bytes, and the final nlmsg_len is at most
    BUFF_SZ. *)
Theorem builders_stay_within_buffer be s ip eth af flag :
  strlen s < IPSET_MAXNAMELEN ->
  (exists r m,
     new_add_to_ipset_fill be s ip af flag zeroed = Ok (r, m) /\
     Forall (fun st => 0 <= fst st /\ fst st + snd st <= BUFF_SZ) (stores m) /\
     nlmsg_len be (buf m) <= BUFF_SZ) /\
  (exists m,
     new_add_mac_to_ipset_fill be s eth af flag zeroed = Ok (tt, m) /\
     Forall (fun st => 0 <= fst st /\ fst st + snd st <= BUFF_SZ) (stores m) /\
     nlmsg_len be (buf m) <= BUFF_SZ) /\
  (exists m,
     flush_ipset_fill be s zeroed = Ok (tt, m) /\
     Forall (fun st => 0 <= fst st /\ fst st + snd st <= BUFF_SZ) (stores m) /\
     nlmsg_len be (buf m) <= BUFF_SZ).
Proof.
  intros H. repeat split.
  - pose proof (new_add_to_ipset_fill_spec be s ip af flag H) as S.
    destruct (new_add_to_ipset_fill be s ip af flag zeroed) as [[[n0 n1] m]|f];
      [|contradiction].
    destruct S as (Hl & Hs & Hn & _).
    exists (n0, n1), m. split; [reflexivity|]. split.
    + now apply stores_in_buffer.
    + now apply Z.leb_le.
  - pose proof (new_add_mac_to_ipset_fill_spec be s eth af flag H) as S.
    destruct (new_add_mac_to_ipset_fill be s eth af flag zeroed) as [[[] m]|f];
      [|contradiction].
    destruct S as (Hl & Hs & Hn & _).
    exists m. split; [reflexivity|]. split.
    + now apply stores_in_buffer.
    + now apply Z.leb_le.
  - pose proof (flush_ipset_fill_spec be s H) as S.
    destruct (flush_ipset_fill be s zeroed) as [[[] m]|f]; [|contradiction].
    destruct S as (Hl & Hs & Hn & _).
    exists m. split; [reflexivity|]. split.
    + now apply stores_in_buffer.
    + now apply Z.leb_le.
Qed.

(** C10.  add_to_ipset calls both builders with AF_INET.  Every datagram it
    sends has AF_INET in the family byte; on the address path the address
    attribute has the type IPSET_ATTR_IPADDR_IPV4 with the network-byte-order
    flag (never the IPv6 one), its length field is the attribute header plus
    4 bytes, and it ends the message. *)
Theorem apply_always_ipv4
  be is_valid_ip inet_aton is_valid_mac ether_aton fuel setname val flag w :
  (forall a, is_valid_ip val = true -> inet_aton val = Some a ->
     add_to_ipset be is_valid_ip inet_aton is_valid_mac ether_aton
       fuel setname val flag w
     = new_add_to_ipset be fuel setname a AF_INET flag w) /\
  (forall e, is_valid_ip val = false -> is_valid_mac val = true ->
     ether_aton val = Some e ->
     add_to_ipset be is_valid_ip inet_aton is_valid_mac ether_aton
       fuel setname val flag w
     = new_add_mac_to_ipset be fuel setname e AF_INET flag w) /\
  (forall d,
     In d (sent_by w (add_to_ipset be is_valid_ip inet_aton is_valid_mac ether_aton
                        fuel setname val flag w)) ->
     field be 1 d (sizeof_nlmsghdr + off_nfgen_family) = AF_INET /\
     (is_valid_ip val = true ->
      exists s, setname = Some s /\
        let a := sizeof_nlmsghdr + sizeof_my_nfgenmsg + 8
                 + NL_ALIGN 32 (sizeof_my_nlattr + (strlen s + 1))
                 + 2 * sizeof_my_nlattr in
        field be 2 d (a + off_nla_type)
          = Z.lor IPSET_ATTR_IPADDR_IPV4 NLA_F_NET_BYTEORDER /\
        field be 2 d (a + off_nla_len) = sizeof_my_nlattr + INADDRSZ /\
        Z.of_nat (length d) = a + sizeof_my_nlattr + INADDRSZ)).
Proof.
  split; [|split].
  - intros a Hip Ha. unfold add_to_ipset. now rewrite Hip, Ha.
  - intros e Hip Hmac He. unfold add_to_ipset. now rewrite Hip, Hmac, He.
  - intros d. unfold add_to_ipset.
    destruct (is_valid_ip val) eqn:Hip.
    + destruct (inet_aton val) as [a|];
        [|rewrite sent_by_same by reflexivity; intros []].
      unfold new_add_to_ipset. destruct setname as [s|];
        [|rewrite sent_by_same by reflexivity; intros []].
      destruct (strlen s >=? IPSET_MAXNAMELEN) eqn:Hc;
        [rewrite sent_by_same by reflexivity; intros []|].
      apply name_check_passes in Hc.
      pose proof (new_add_to_ipset_fill_ipv4 be s a flag Hc) as S.
      pose proof (sent_by_transmit be fuel
        ((new_add_to_ipset_fill be s a AF_INET flag ;;; ret tt) zeroed) w) as T.
      unfold bind at 1 2 in T. unfold bind at 1.
      destruct (new_add_to_ipset_fill be s a AF_INET flag zeroed) as [[r m]|f];
        [|contradiction].
      cbv zeta in S. destruct S as (Hf & Ht & Hl & _ & Hd).
      unfold ret in T |- *. destruct T as (k & _ & _ & ->).
      intros Hin. apply repeat_spec in Hin. subst d.
      split; [exact Hf|]. intros _. exists s. cbv zeta. auto.
    + destruct (is_valid_mac val) eqn:Hmac;
        [|rewrite sent_by_same by reflexivity; intros []].
      destruct (ether_aton val) as [e|];
        [|rewrite sent_by_same by reflexivity; intros []].
      unfold new_add_mac_to_ipset. destruct setname as [s|];
        [|rewrite sent_by_same by reflexivity; intros []].
      destruct (strlen s >=? IPSET_MAXNAMELEN) eqn:Hc;
        [rewrite sent_by_same by reflexivity; intros []|].
      apply name_check_passes in Hc.
      pose proof (new_add_mac_to_ipset_fill_ipv4 be s e flag Hc) as S.
      pose proof (sent_by_transmit be fuel
        (new_add_mac_to_ipset_fill be s e AF_INET flag zeroed) w) as T.
      destruct (new_add_mac_to_ipset_fill be s e AF_INET flag zeroed) as [[r m]|f];
        [|contradiction].
      cbv zeta in S. destruct T as (k & _ & _ & ->).
      intros Hin. apply repeat_spec in Hin. subst d.
      split; [exact S|]. intros Habs. discriminate Habs.
Qed.

(** * The claims at sample inputs *)

(** The protocol attribute appended after the two headers: its header holds
    the length 5, which is not a multiple of 4 (claim C1 as stated). *)
Lemma add_attr_header_length_unaligned :
  match add_attr false IPSET_ATTR_PROTOCOL 1 [IPSET_PROTOCOL] (ex_headers false) with
  | Ok (_, m') =>
      let attr := NL_ALIGN 32 (nlmsg_len false (buf (ex_headers false))) in
      field false 2 (buf m') (attr + off_nla_len) = 5 /\
      (field false 2 (buf m') (attr + off_nla_len) mod 4 =? 0) = false
  | Fault _ => False
  end.
Proof. vm_compute. split; reflexivity. Qed.

Lemma add_attr_header_length_witness :
  exists m',
    add_attr false IPSET_ATTR_PROTOCOL 1 [IPSET_PROTOCOL] (ex_headers false)
      = Ok (tt, m') /\
    field false 2 (buf m')
      (NL_ALIGN 32 (nlmsg_len false (buf (ex_headers false))) + off_nla_len)
      = sizeof_my_nlattr + 1 /\
    let advance := NL_ALIGN 32 (sizeof_my_nlattr + 1) in
    nlmsg_len false (buf m')
      = wrap 32 (nlmsg_len false (buf (ex_headers false)) + advance) /\
    advance mod 4 = 0 /\
    sizeof_my_nlattr + 1 <= advance < sizeof_my_nlattr + 1 + 4.
Proof.
  apply (add_attr_header_length false IPSET_ATTR_PROTOCOL 1 [IPSET_PROTOCOL]
           (ex_headers false)).
  - reflexivity.
  - vm_compute. discriminate.
  - vm_compute. discriminate.
  - simpl. lia.
Defined.

Lemma nested_frames_backpatched_witness :
  exists n0 n1 m,
    new_add_to_ipset_fill false ex_setname ex_in_addr AF_INET 0 zeroed
      = Ok ((n0, n1), m) /\
    sizeof_nlmsghdr <= n0 < n1 /\
    field false 2 (buf m) (n1 + off_nla_len)
      = NL_ALIGN 32 (nlmsg_len false (buf m)) - n1 /\
    field false 2 (buf m) (n0 + off_nla_len)
      = NL_ALIGN 32 (nlmsg_len false (buf m)) - n0 /\
    skipn (length (stores m) - 2) (stores m)
      = [(n1 + off_nla_len, 2); (n0 + off_nla_len, 2)].
Proof.
  apply (nested_frames_backpatched false ex_setname ex_in_addr AF_INET 0).
  vm_compute. reflexivity.
Defined.

(** With a queue that is always full the loop of flush_ipset hands the
    message to sendto 1001 times before it gives up (claim C3 as stated
    allows 1000). *)
Lemma would_block_sends_1001_times :
  (forall k, send_env ex_kernel_busy k = Some EWOULDBLOCK) /\
  match flush_ipset false 5000 (Some ex_setname) ex_kernel_busy with
  | Returns rc w' =>
      rc = -1 /\ retries w' = 0 /\
      length (sent w') = 1001%nat /\ (length (sent w') <=? 1000)%nat = false
  | _ => False
  end.
Proof. split; [reflexivity|]. vm_compute. repeat split. Qed.

Lemma send_loop_would_block_gives_up_witness :
  exists w',
    send_loop 1001 (buf zeroed) 20 ex_kernel_busy = Done w' /\
    sent w' = sent ex_kernel_busy ++ repeat (firstn (Z.to_nat 20) (buf zeroed)) 1001 /\
    retries w' = 0 /\ errno w' = EWOULDBLOCK.
Proof.
  apply (send_loop_would_block_gives_up 1001 (buf zeroed) 20 ex_kernel_busy).
  - intros k. reflexivity.
  - intros k. reflexivity.
  - reflexivity.
  - apply le_n.
Defined.

Lemma set_name_length_check_witness :
  (exists m,
     flush_ipset_fill false ex_setname zeroed = Ok (tt, m) /\
     flush_ipset false 1 (Some ex_setname) ex_kernel_accepts
       = finish (send_loop 1 (buf m) (nlmsg_len false (buf m)) ex_kernel_accepts)) /\
  flush_ipset false 1 (Some ex_long_setname) ex_kernel_accepts
    = Returns (-1) (set_errno ENAMETOOLONG ex_kernel_accepts).
Proof.
  split.
  - apply (proj1 (set_name_length_check false 1 ex_setname ex_in_addr ex_ether_addr
                    AF_INET 0 ex_kernel_accepts)).
    vm_compute. discriminate.
  - apply (proj2 (set_name_length_check false 1 ex_long_setname ex_in_addr
                    ex_ether_addr AF_INET 0 ex_kernel_accepts)).
    vm_compute. discriminate.
Defined.

Lemma flush_family_is_ipv4_witness :
  exists m,
    flush_ipset_fill true ex_setname zeroed = Ok (tt, m) /\
    field true 1 (buf m) (sizeof_nlmsghdr + off_nfgen_family) = AF_INET.
Proof.
  apply (proj2 (flush_family_is_ipv4 true 1 (Some ex_setname) ex_kernel_accepts)).
  vm_compute. reflexivity.
Defined.

Lemma mac_builder_always_add_witness :
  exists m,
    new_add_mac_to_ipset_fill false ex_setname ex_ether_addr AF_INET 1 zeroed
      = Ok (tt, m) /\
    field false 2 (buf m) off_nlmsg_type
      = Z.lor IPSET_CMD_ADD (Z.shiftl NFNL_SUBSYS_IPSET 8).
Proof.
  apply (proj2 (proj2 (proj2
    (mac_builder_always_add false 1 (Some ex_setname) ex_ether_addr AF_INET 1
       ex_kernel_accepts)))).
  vm_compute. reflexivity.
Defined.

Lemma unclassified_value_rejected_witness :
  add_to_ipset false ex_is_valid_ip ex_inet_aton ex_is_valid_mac ex_ether_aton
    1 (Some ex_setname) ex_junk_text 0 ex_kernel_accepts
    = Returns (-1) ex_kernel_accepts /\
  sent_by ex_kernel_accepts
    (add_to_ipset false ex_is_valid_ip ex_inet_aton ex_is_valid_mac ex_ether_aton
       1 (Some ex_setname) ex_junk_text 0 ex_kernel_accepts) = [].
Proof.
  apply (unclassified_value_rejected false ex_is_valid_ip ex_inet_aton
           ex_is_valid_mac ex_ether_aton 1 (Some ex_setname) ex_junk_text 0
           ex_kernel_accepts); reflexivity.
Defined.

Lemma builders_stay_within_buffer_witness :
  exists m,
    flush_ipset_fill false (repeat 65 31) zeroed = Ok (tt, m) /\
    Forall (fun st => 0 <= fst st /\ fst st + snd st <= BUFF_SZ) (stores m) /\
    nlmsg_len false (buf m) <= BUFF_SZ.
Proof.
  apply (builders_stay_within_buffer false (repeat 65 31) ex_in_addr ex_ether_addr
           AF_INET 0).
  vm_compute. reflexivity.
Defined.

Lemma apply_always_ipv4_witness :
  add_to_ipset false ex_is_valid_ip ex_inet_aton ex_is_valid_mac ex_ether_aton
    1 (Some ex_setname) ex_ip_text 0 ex_kernel_accepts
    = new_add_to_ipset false 1 (Some ex_setname) ex_in_addr AF_INET 0
        ex_kernel_accepts /\
  add_to_ipset false ex_is_valid_ip ex_inet_aton ex_is_valid_mac ex_ether_aton
    1 (Some ex_setname) ex_mac_text 0 ex_kernel_accepts
    = new_add_mac_to_ipset false 1 (Some ex_setname) ex_ether_addr AF_INET 0
        ex_kernel_accepts /\
  In ex_datagram
     (sent_by ex_kernel_accepts
        (add_to_ipset false ex_is_valid_ip ex_inet_aton ex_is_valid_mac
           ex_ether_aton 1 (Some ex_setname) ex_ip_text 0 ex_kernel_accepts)) /\
  field false 1 ex_datagram (sizeof_nlmsghdr + off_nfgen_family) = AF_INET /\
  exists s, Some ex_setname = Some s /\
    let a := sizeof_nlmsghdr + sizeof_my_nfgenmsg + 8
             + NL_ALIGN 32 (sizeof_my_nlattr + (strlen s + 1))
             + 2 * sizeof_my_nlattr in
    field false 2 ex_datagram (a + off_nla_type)
      = Z.lor IPSET_ATTR_IPADDR_IPV4 NLA_F_NET_BYTEORDER /\
    field false 2 ex_datagram (a + off_nla_len) = sizeof_my_nlattr + INADDRSZ /\
    Z.of_nat (length ex_datagram) = a + sizeof_my_nlattr + INADDRSZ.
Proof.
  assert (H : In ex_datagram
     (sent_by ex_kernel_accepts
        (add_to_ipset false ex_is_valid_ip ex_inet_aton ex_is_valid_mac
           ex_ether_aton 1 (Some ex_setname) ex_ip_text 0 ex_kernel_accepts)))
    by (vm_compute; left; reflexivity).
  split; [|split; [|split; [exact H|]]].
  - apply (proj1 (apply_always_ipv4 false ex_is_valid_ip ex_inet_aton
             ex_is_valid_mac ex_ether_aton 1 (Some ex_setname) ex_ip_text 0
             ex_kernel_accepts)); reflexivity.
  - apply (proj1 (proj2 (apply_always_ipv4 false ex_is_valid_ip ex_inet_aton
             ex_is_valid_mac ex_ether_aton 1 (Some ex_setname) ex_mac_text 0
             ex_kernel_accepts))); reflexivity.
  - destruct (proj2 (proj2 (apply_always_ipv4 false ex_is_valid_ip ex_inet_aton
             ex_is_valid_mac ex_ether_aton 1 (Some ex_setname) ex_ip_text 0
             ex_kernel_accepts)) ex_datagram H) as [Hf Ha].
    split; [exact Hf | exact (Ha eq_refl)].
Defined.

(** * Further properties of the code *)

(** ** NL_ALIGN (ipset.c:87) *)

(** X7.  NL_ALIGN rounds up to the next multiple of 4: the result is the least
    multiple of 4 that is not below the argument, and aligning twice is
    aligning once. *)
Theorem NL_ALIGN_least_multiple bits x :
  2 <= bits -> 0 <= x <= 2 ^ bits - 4 ->
  NL_ALIGN bits x mod 4 = 0 /\
  x <= NL_ALIGN bits x /\
  (forall y, y mod 4 = 0 -> x <= y -> NL_ALIGN bits x <= y) /\
  NL_ALIGN bits (NL_ALIGN bits x) = NL_ALIGN bits x.
Proof.
  intros Hb Hx.
  assert (Hp : 4 <= 2 ^ bits).
  { change 4 with (2 ^ 2). apply Z.pow_le_mono_r; lia. }
  assert (Hd : (4 | 2 ^ bits)).
  { exists (2 ^ (bits - 2)). change 4 with (2 ^ 2).
    rewrite <- Z.pow_add_r by lia. f_equal. lia. }
  destruct (NL_ALIGN_bounds bits x Hb Hx) as [Hm Hr].
  split; [exact Hm|]. split; [lia|]. split.
  - intros y Hy Hxy.
    apply Z.mod_divide in Hm; [|lia]. apply Z.mod_divide in Hy; [|lia].
    destruct Hm as [a Ha]. destruct Hy as [c Hc]. lia.
  - assert (Hle : NL_ALIGN bits x <= 2 ^ bits - 4).
    { apply Z.mod_divide in Hm; [|lia]. destruct Hm as [a Ha].
      destruct Hd as [c Hc]. lia. }
    destruct (NL_ALIGN_bounds bits (NL_ALIGN bits x) Hb ltac:(lia)) as [Hm' Hr'].
    apply Z.mod_divide in Hm; [|lia]. apply Z.mod_divide in Hm'; [|lia].
    destruct Hm as [a Ha]. destruct Hm' as [c Hc]. lia.
Qed.


(** ** add_attr (ipset.c:119-127) *)

Lemma nth_splice_outside off data b i :
  (off + length data <= length b)%nat ->
  (i < off \/ off + length data <= i)%nat ->
  nth i (splice off data b) 0 = nth i b 0.
Proof.
  intros H D. rewrite nth_splice by lia.
  destruct (Nat.ltb_spec i off); [reflexivity|].
  destruct (Nat.ltb_spec i (off + length data)); [lia | reflexivity].
Qed.

(** X5.  add_attr writes the 16-bit type and the payload bytes as they are, and
    touches nothing else but nlmsg_len: every byte of the buffer before the
    attribute (past the length field of the message header) and every byte
    after the payload, the padding included, keeps its value. *)
Theorem add_attr_writes_only_attribute be type len data m :
  length (buf m) = Z.to_nat BUFF_SZ ->
  let attr := NL_ALIGN 32 (nlmsg_len be (buf m)) in
  sizeof_my_nlattr <= attr ->
  attr + sizeof_my_nlattr + len <= BUFF_SZ ->
  0 <= len <= Z.of_nat (length data) ->
  exists m',
    add_attr be type len data m = Ok (tt, m') /\
    field be 2 (buf m') (attr + off_nla_type) = wrap 16 type /\
    bytes_at (buf m') (Z.to_nat (attr + sizeof_my_nlattr)) (Z.to_nat len)
      = firstn (Z.to_nat len) data /\
    (forall i, 4 <= i < attr \/ attr + sizeof_my_nlattr + len <= i ->
       nth (Z.to_nat i) (buf m') 0 = nth (Z.to_nat i) (buf m) 0).
Proof.
  intros Hlen attr Ha Hfit Hl.
  destruct (add_attr_spec be type len data m Hlen Ha Hfit Hl)
    as (m' & E & _ & _ & Ht & Hp & _ & _).
  exists m'. split; [exact E|]. split; [exact Ht|]. split; [exact Hp|].
  intros i Hi.
  unfold sizeof_my_nlattr, BUFF_SZ in *.
  assert (HL : Z.of_nat (length (buf m)) = 256) by (rewrite Hlen; reflexivity).
  revert E. unfold add_attr, bind. rewrite get_nlmsg_len_Ok by lia.
  change (NL_ALIGN 64 sizeof_my_nlattr) with 4.
  fold attr. unfold store16, off_nla_type, off_nla_len.
  rewrite store_bytes_Ok by (rewrite ?length_encode; lia).
  set (b1 := splice (Z.to_nat (attr + 2)) (encode be 2 type) (buf m)).
  assert (H1 : length b1 = length (buf m))
    by (apply length_splice; rewrite length_encode; lia).
  rewrite store_bytes_Ok by (rewrite ?length_encode; cbn [buf]; lia).
  cbn [buf stores]. fold b1.
  set (b2 := splice (Z.to_nat (attr + 0)) _ b1).
  assert (H2 : length b2 = length (buf m))
    by (unfold b2; rewrite length_splice; rewrite ?length_encode; lia).
  change (NL_ALIGN 64 sizeof_my_nlattr) with 4. unfold memcpy.
  replace ((0 <=? len) && (len <=? Z.of_nat (length data))) with true
    by (symmetry; apply andb_true_intro; split; lia).
  set (payload := firstn (Z.to_nat len) data).
  assert (Hpl : Z.of_nat (length payload) = len)
    by (unfold payload; rewrite length_firstn; lia).
  rewrite store_bytes_Ok by (cbn [buf]; lia).
  cbn [buf stores].
  set (b3 := splice (Z.to_nat (attr + 4)) payload b2).
  assert (H3 : length b3 = length (buf m))
    by (unfold b3; rewrite length_splice; lia).
  rewrite get_nlmsg_len_Ok by (cbn [buf]; lia). cbn [buf].
  unfold set_nlmsg_len, store32, off_nlmsg_len.
  rewrite store_bytes_Ok by (rewrite ?length_encode; cbn [buf]; lia).
  cbn [buf stores]. intros [= <-]. cbn [buf].
  rewrite nth_splice_outside by (rewrite ?length_encode; lia).
  unfold b3. rewrite nth_splice_outside by lia.
  unfold b2. rewrite nth_splice_outside by (rewrite ?length_encode; lia).
  unfold b1. rewrite nth_splice_outside by (rewrite ?length_encode; lia).
  reflexivity.
Qed.

(** X6.  add_attr has no capacity check: when header and payload do not fit
    between the aligned end of the message and the end of the buffer, it
    stores past the end of the buffer. *)
Theorem add_attr_overruns be type len data m :
  length (buf m) = Z.to_nat BUFF_SZ ->
  0 <= len <= Z.of_nat (length data) ->
  BUFF_SZ < NL_ALIGN 32 (nlmsg_len be (buf m)) + sizeof_my_nlattr + len ->
  add_attr be type len data m = Fault BufferOverrun.
Proof.
  intros Hlen Hl Hbig.
  unfold sizeof_my_nlattr, BUFF_SZ in *.
  assert (HL : Z.of_nat (length (buf m)) = 256) by (rewrite Hlen; reflexivity).
  unfold add_attr, bind. rewrite get_nlmsg_len_Ok by lia.
  change (NL_ALIGN 64 sizeof_my_nlattr) with 4.
  set (attr := NL_ALIGN 32 (nlmsg_len be (buf m))) in *.
  assert (H0 : 0 <= attr).
  { unfold attr. rewrite NL_ALIGN_div by lia.
    pose proof (Z.mod_pos_bound (nlmsg_len be (buf m) + 3) (2 ^ 32) ltac:(lia)).
    unfold wrap. pose proof (Z.div_pos ((nlmsg_len be (buf m) + 3) mod 2 ^ 32) 4).
    lia. }
  unfold store16, off_nla_type, off_nla_len.
  destruct (Z.le_gt_cases (attr + 4) 256) as [Hfit|Hno].
  - rewrite store_bytes_Ok by (rewrite ?length_encode; lia).
    rewrite store_bytes_Ok
      by (cbn [buf]; rewrite ?length_splice; rewrite ?length_encode; lia).
    cbn [buf stores]. change (NL_ALIGN 64 sizeof_my_nlattr) with 4. unfold memcpy.
    replace ((0 <=? len) && (len <=? Z.of_nat (length data))) with true
      by (symmetry; apply andb_true_intro; split; lia).
    unfold store_bytes, in_bounds. cbn [buf].
    rewrite !length_splice by (rewrite ?length_splice; rewrite ?length_encode; lia).
    rewrite length_firstn.
    replace (attr + 4 + Z.of_nat (Nat.min (Z.to_nat len) (length data))
             <=? Z.of_nat (length (buf m))) with false
      by (symmetry; apply Z.leb_gt; lia).
    now rewrite andb_false_r.
  - unfold store_bytes at 1, in_bounds. rewrite length_encode.
    replace (attr + 2 + Z.of_nat 2 <=? Z.of_nat (length (buf m))) with false
      by (symmetry; apply Z.leb_gt; lia).
    now rewrite andb_false_r.
Qed.

(** ** retry_send and the send loop (ipset.c:91-116, 179, 215, 249) *)

Lemma send_loop_step fuel b len w :
  send_loop (S fuel) b len w =
  let (again, w2) := retry_send (fst (sendto b len w)) (snd (sendto b len w)) in
  if again =? 0 then Done w2 else send_loop fuel b len w2.
Proof. cbn [send_loop]. destruct (sendto b len w). reflexivity. Qed.

(** X9.  A send interrupted [n] times and then accepted is attempted [n + 1]
    times, for every [n] (so an accepted first send is attempted once); the
    loop then exits with errno and the retry counter cleared, whatever they
    were before, and without sleeping. *)
Theorem interrupted_sends_are_retried n : forall fuel b len w,
  0 <= len ->
  (forall i, (i < n)%nat -> send_env w (length (sent w) + i) = Some EINTR) ->
  send_env w (length (sent w) + n) = None ->
  (n < fuel)%nat ->
  exists w',
    send_loop fuel b len w = Done w' /\
    sent w' = sent w ++ repeat (firstn (Z.to_nat len) b) (S n) /\
    errno w' = 0 /\ retries w' = 0 /\ nsleep w' = nsleep w.
Proof.
  induction n as [|n IH]; intros fuel b len w Hlen Hint Hacc Hf;
    (destruct fuel as [|fuel]; [lia|]); rewrite send_loop_step; unfold sendto.
  - rewrite Nat.add_0_r in Hacc. rewrite Hacc. cbn [fst snd].
    unfold retry_send. destruct (Z.eqb_spec len (-1)) as [E|_]; [lia|].
    cbn. eexists. repeat split.
  - rewrite <- (Nat.add_0_r (length (sent w))), (Hint 0%nat) by lia.
    cbn [fst snd]. unfold retry_send. cbn.
    destruct (IH fuel b len
                (mkWorld EINTR 0 (sent w ++ [firstn (Z.to_nat len) b]) (nsleep w)
                         (send_env w) (sleep_env w)))
      as (w' & E & Hs & He & Hr & Hn); auto; try lia; cbn [sent send_env].
    + intros i Hi. rewrite length_app. cbn [length].
      replace (length (sent w) + 1 + i)%nat with (length (sent w) + S i)%nat by lia.
      apply Hint. lia.
    + rewrite length_app. cbn [length].
      replace (length (sent w) + 1 + n)%nat with (length (sent w) + S n)%nat by lia.
      exact Hacc.
    + exists w'. split; [exact E|]. cbn [sent nsleep] in Hs, Hn.
      rewrite Hs, <- app_assoc. repeat split; auto.
Qed.

(** X10.  A send that is interrupted every time is retried for ever: the loop
    never exits, and the retry counter never limits it. *)
Theorem always_interrupted_never_exits fuel : forall b len w,
  (forall k, send_env w k = Some EINTR) ->
  exists w',
    send_loop fuel b len w = More w' /\
    sent w' = sent w ++ repeat (firstn (Z.to_nat len) b) fuel.
Proof.
  induction fuel as [|fuel IH]; intros b len w Hint.
  - exists w. cbn. now rewrite app_nil_r.
  - rewrite send_loop_step. unfold sendto. rewrite Hint. cbn [fst snd].
    unfold retry_send. cbn.
    destruct (IH b len
                (mkWorld EINTR 0 (sent w ++ [firstn (Z.to_nat len) b]) (nsleep w)
                         (send_env w) (sleep_env w)) Hint)
      as (w' & E & Hs).
    exists w'. split; [exact E|]. cbn [sent] in Hs.
    rewrite Hs, <- app_assoc. reflexivity.
Qed.

(** X13.  A send refused with an error that is neither would-block nor
    interruption is attempted once: the loop exits without sleeping, the
    retry counter is reset and the error stays in errno, so the entry point
    returns -1. *)
Theorem other_error_is_final fuel b len w e :
  send_env w (length (sent w)) = Some e ->
  e <> EAGAIN -> e <> EWOULDBLOCK -> e <> EINTR -> e <> 0 ->
  exists w',
    send_loop (S fuel) b len w = Done w' /\
    sent w' = sent w ++ [firstn (Z.to_nat len) b] /\
    errno w' = e /\ retries w' = 0 /\ nsleep w' = nsleep w /\
    finish (send_loop (S fuel) b len w) = Returns (-1) w'.
Proof.
  intros Hs Ha Hw Hi H0.
  assert (E : send_loop (S fuel) b len w
              = Done (mkWorld e 0 (sent w ++ [firstn (Z.to_nat len) b]) (nsleep w)
                              (send_env w) (sleep_env w))).
  { rewrite send_loop_step. unfold sendto. rewrite Hs. cbn [fst snd].
    unfold retry_send. cbn [errno].
    rewrite (proj2 (Z.eqb_neq e EAGAIN) Ha), (proj2 (Z.eqb_neq e EWOULDBLOCK) Hw).
    cbn [orb andb negb]. change (-1 =? -1) with true. cbn [negb].
    unfold set_retries. cbn [errno retries sent nsleep send_env sleep_env].
    rewrite (proj2 (Z.eqb_neq e EINTR) Hi). reflexivity. }
  eexists. split; [exact E|]. rewrite E. cbn [finish errno sent retries nsleep].
  rewrite (proj2 (Z.eqb_neq e 0) H0). repeat split.
Qed.

(** X15.  When the sleep between attempts is itself interrupted every time, the
    error tested after the sleep is EINTR: a send that always would block is
    then retried for ever, the limit of 1000 retries never ends the loop. *)
Theorem interrupted_sleep_defeats_limit fuel : forall b len w,
  (forall k, send_env w k = Some EWOULDBLOCK) ->
  (forall k, sleep_env w k = Some EINTR) ->
  exists w',
    send_loop fuel b len w = More w' /\
    sent w' = sent w ++ repeat (firstn (Z.to_nat len) b) fuel.
Proof.
  induction fuel as [|fuel IH]; intros b len w Hsend Hsleep.
  - exists w. cbn. now rewrite app_nil_r.
  - rewrite send_loop_step. unfold sendto. rewrite Hsend. cbn [fst snd].
    unfold retry_send, nanosleep. cbn -[Z.ltb Z.add]. rewrite Hsleep.
    cbn -[Z.ltb Z.add].
    destruct (retries w <? 1000); cbn -[Z.add];
      match goal with
      | |- context [send_loop fuel b len ?w1] =>
          destruct (IH b len w1 Hsend Hsleep) as (w' & E & Hs);
          exists w'; split; [exact E|];
          unfold set_retries in Hs; cbn [sent errno retries nsleep send_env sleep_env] in Hs;
          rewrite Hs, <- app_assoc; reflexivity
      end.
Qed.

Lemma bounded_from n : forall fuel b len w,
  0 <= len ->
  (forall k, send_env w k <> Some EINTR) ->
  (forall k, sleep_env w k <> Some EINTR) ->
  retries w = 1000 - Z.of_nat n -> (n <= 1000)%nat -> (n < fuel)%nat ->
  exists w' k,
    send_loop fuel b len w = Done w' /\
    sent w' = sent w ++ repeat (firstn (Z.to_nat len) b) k /\
    (1 <= k <= S n)%nat /\ retries w' = 0.
Proof.
  induction n as [|n IH]; intros fuel b len w Hlen Hsend Hsleep Hr Hn Hf;
    (destruct fuel as [|fuel]; [lia|]); rewrite send_loop_step; unfold sendto;
    pose proof (Hsend (length (sent w))) as Hs;
    destruct (send_env w (length (sent w))) as [e|]; cbn [fst snd];
    unfold retry_send; cbn [errno].
  (* n = 0 *)
  - change (-1 =? -1) with true. cbn [negb].
    destruct ((e =? EAGAIN) || (e =? EWOULDBLOCK)) eqn:Hb.
    + unfold nanosleep. cbn [errno retries sent nsleep send_env sleep_env set_retries].
      rewrite Hr. change (1000 - Z.of_nat 0 <? 1000) with false. cbn [andb].
      pose proof (Hsleep (nsleep w)) as Hsl.
      destruct (sleep_env w (nsleep w)) as [e'|].
      * destruct (Z.eqb_spec e' EINTR) as [->|_]; [congruence|].
        cbn [Z.eqb]. eexists _, 1%nat. repeat split; lia.
      * destruct (Z.eqb_spec e EINTR) as [->|_]; [congruence|].
        eexists _, 1%nat. repeat split; lia.
    + cbn [andb set_retries errno retries].
      destruct (Z.eqb_spec e EINTR) as [->|_]; [congruence|].
      eexists _, 1%nat. repeat split; lia.
  - destruct (Z.eqb_spec len (-1)); [lia|]. cbn [negb Z.eqb].
    eexists _, 1%nat. repeat split; lia.
  (* n > 0 *)
  - change (-1 =? -1) with true. cbn [negb].
    destruct ((e =? EAGAIN) || (e =? EWOULDBLOCK)) eqn:Hb.
    + unfold nanosleep. cbn [errno retries sent nsleep send_env sleep_env set_retries].
      rewrite Hr.
      destruct (Z.ltb_spec (1000 - Z.of_nat (S n)) 1000) as [_|]; [|lia].
      cbn [andb]. change (1 =? 0) with false. cbv iota.
      match goal with
      | |- context [send_loop fuel b len ?w1] =>
          destruct (IH fuel b len w1) as (w' & k & E & Hs' & Hk & Hr');
          [ assumption | assumption | assumption
          | unfold set_retries; cbn [retries]; lia | lia | lia | ];
          exists w', (S k); split; [exact E|];
          unfold set_retries in Hs'; cbn [sent] in Hs';
          rewrite Hs', <- app_assoc; repeat split; auto; lia
      end.
    + cbn [andb set_retries errno retries].
      destruct (Z.eqb_spec e EINTR) as [->|_]; [congruence|].
      eexists _, 1%nat. repeat split; lia.
  - destruct (Z.eqb_spec len (-1)); [lia|]. cbn [negb Z.eqb].
    eexists _, 1%nat. repeat split; lia.
Qed.

(** X12.  When no send attempt and no sleep is interrupted, the loop always
    exits: entered with the retry counter at 0 it makes at least one and at
    most 1001 send attempts, whatever the kernel answers, and leaves the
    counter at 0. *)
Theorem send_loop_bounded fuel b len w :
  0 <= len ->
  (forall k, send_env w k <> Some EINTR) ->
  (forall k, sleep_env w k <> Some EINTR) ->
  retries w = 0 ->
  (1001 <= fuel)%nat ->
  exists w' k,
    send_loop fuel b len w = Done w' /\
    sent w' = sent w ++ repeat (firstn (Z.to_nat len) b) k /\
    (1 <= k <= 1001)%nat /\ retries w' = 0.
Proof.
  intros Hlen Hs Hsl Hr Hf.
  apply (bounded_from 1000 fuel b len w); auto; lia.
Qed.

Lemma envs_retry_send rc w :
  send_env (snd (retry_send rc w)) = send_env w /\
  sleep_env (snd (retry_send rc w)) = sleep_env w.
Proof.
  unfold retry_send, nanosleep, set_errno, set_retries.
  repeat match goal with
         | |- context [if ?c then _ else _] => destruct c
         end; split; reflexivity.
Qed.

(** X14.  The return value tells how the last send attempt ended: when the loop
    exits, errno is 0 exactly if the last attempt was accepted, so the entry
    point returns 0 in that case and -1 in every other.  Nothing before the
    last attempt matters, nor the value errno had on entry. *)
Theorem return_value_reports_last_send fuel : forall b len w w',
  0 <= len ->
  (forall k, send_env w k <> Some 0) ->
  (forall k, sleep_env w k <> Some 0) ->
  send_loop fuel b len w = Done w' ->
  exists k,
    sent w' = sent w ++ repeat (firstn (Z.to_nat len) b) (S k) /\
    (send_env w (length (sent w) + k) = None ->
       finish (Done w') = Returns 0 w') /\
    (send_env w (length (sent w) + k) <> None ->
       finish (Done w') = Returns (-1) w').
Proof.
  induction fuel as [|fuel IH]; intros b len w w' Hlen Hs0 Hsl0; [discriminate|].
  rewrite send_loop_step.
  pose proof (sent_sendto b len w) as Hsent.
  pose proof (envs_retry_send (fst (sendto b len w)) (snd (sendto b len w))) as [He1 He2].
  pose proof (sent_retry_send (fst (sendto b len w)) (snd (sendto b len w))) as Hsr.
  destruct (retry_send (fst (sendto b len w)) (snd (sendto b len w)))
    as [again w2] eqn:Hrs.
  cbn [snd] in He1, He2, Hsr.
  assert (Henv : send_env (snd (sendto b len w)) = send_env w /\
                 sleep_env (snd (sendto b len w)) = sleep_env w).
  { unfold sendto. destruct (send_env w (length (sent w))); split; reflexivity. }
  destruct Henv as [Hv1 Hv2].
  destruct (Z.eqb_spec again 0) as [->|Hne].
  - intros [= <-]. exists 0%nat. rewrite Nat.add_0_r.
    split; [rewrite Hsr, Hsent; reflexivity|].
    revert Hrs. unfold sendto.
    pose proof (Hs0 (length (sent w))) as Hs.
    pose proof (Hsl0 (nsleep w)) as Hsl.
    destruct (send_env w (length (sent w))) as [e|]; cbn [fst snd];
      unfold retry_send; cbn [errno].
    + change (-1 =? -1) with true. cbn [negb].
      unfold nanosleep, set_retries.
      cbn [errno retries sent nsleep send_env sleep_env].
      intros Hrs. split; [discriminate|]. intros _.
      assert (He : errno w2 <> 0).
      { revert Hrs.
        destruct ((e =? EAGAIN) || (e =? EWOULDBLOCK)) eqn:Hb;
          destruct (sleep_env w (nsleep w)) as [e'|];
          repeat match goal with
                 | |- context [if ?c then _ else _] => destruct c
                 end;
          intros [= <-]; cbn [errno]; congruence. }
      cbn [finish]. now rewrite (proj2 (Z.eqb_neq _ _) He).
    + destruct (Z.eqb_spec len (-1)); [lia|]. cbn [negb].
      intros [= <-]. split; [reflexivity | congruence].
  - intros Hl.
    destruct (IH b len w2 w' Hlen) as (k & Hk & Hok & Hbad); auto.
    + intros k. rewrite He1, Hv1. apply Hs0.
    + intros k. rewrite He2, Hv2. apply Hsl0.
    + exists (S k). rewrite Hsr, Hsent in Hk, Hok, Hbad.
      rewrite He1, Hv1 in Hok, Hbad. rewrite length_app in Hok, Hbad.
      cbn [length] in Hok, Hbad.
      replace (length (sent w) + 1 + k)%nat with (length (sent w) + S k)%nat
        in Hok, Hbad by lia.
      split; [|split; assumption].
      rewrite Hk, <- app_assoc. reflexivity.
Qed.

(** ** The messages on the wire *)

Lemma flush_ipset_fill_wire be s :
  strlen s < IPSET_MAXNAMELEN ->
  match flush_ipset_fill be s zeroed with
  | Ok (_, m) => datagram_of be m = wire_flush be s
  | Fault _ => False
  end.
Proof. intros H. by_name_length be s H. Qed.

Lemma new_add_mac_to_ipset_fill_wire be s eth af timeout :
  strlen s < IPSET_MAXNAMELEN ->
  match new_add_mac_to_ipset_fill be s eth af timeout zeroed with
  | Ok (_, m) => datagram_of be m = wire_mac be s eth af
  | Fault _ => False
  end.
Proof.
  intros H. destruct eth.
  unfold new_add_mac_to_ipset_fill, wire_mac, wire_message, store8.
  destruct be;
    [ change (encode true 1 af) with [af mod 256]
    | change (encode false 1 af) with [af mod 256] ];
    generalize (af mod 256); intros family;
    name_cases 32%nat s H ltac:(vm_compute; reflexivity).
Qed.

Lemma new_add_to_ipset_fill_wire be s ip af remove :
  strlen s < IPSET_MAXNAMELEN ->
  match new_add_to_ipset_fill be s ip af remove zeroed with
  | Ok (_, m) => datagram_of be m = wire_addr be s ip af remove
  | Fault _ => False
  end.
Proof.
  intros H. destruct ip.
  unfold new_add_to_ipset_fill, wire_addr, wire_message, store8.
  destruct (remove =? 0), (af =? AF_INET);
    (destruct be;
     [ change (encode true 1 af) with [af mod 256]
     | change (encode false 1 af) with [af mod 256] ];
     generalize (af mod 256); intros family;
     name_cases 32%nat s H ltac:(vm_compute; reflexivity)).
Qed.

Lemma transmit_sends be fuel (r : res (unit * mem)) w d :
  match r with
  | Ok (_, m) => datagram_of be m = d
  | Fault _ => False
  end ->
  exists k, (k <= fuel)%nat /\ (fuel <> 0%nat -> k <> 0%nat) /\
    sent_by w (transmit be fuel r w) = repeat d k.
Proof.
  intros H. pose proof (sent_by_transmit be fuel r w) as T.
  destruct r as [[u m]|f]; [|contradiction].
  unfold datagram_of in H. rewrite H in T. exact T.
Qed.

Lemma finish_not_crash r f w : finish r <> Crashes f w.
Proof. destruct r; discriminate. Qed.

(** X3.  What flush_ipset puts on the wire for a set name that passes the check:
    each send attempt carries the same message, header with command
    IPSET_CMD_FLUSH and total length, sub-header with AF_INET, protocol
    attribute, set-name attribute with its terminating zero, zero padding. *)
Theorem flush_wire_format be fuel s w :
  strlen s < IPSET_MAXNAMELEN ->
  exists k, (k <= fuel)%nat /\ (fuel <> 0%nat -> k <> 0%nat) /\
    sent_by w (flush_ipset be fuel (Some s) w) = repeat (wire_flush be s) k.
Proof.
  intros H. unfold flush_ipset. rewrite (proj2 (name_check_passes s) H).
  apply transmit_sends. now apply flush_ipset_fill_wire.
Qed.

(** X2.  What new_add_mac_to_ipset puts on the wire: command IPSET_CMD_ADD, the
    caller's family byte, protocol and set-name attributes, then one flat
    IPSET_ATTR_ETHER attribute holding the six octets and two bytes of
    padding. *)
Theorem mac_wire_format be fuel s eth af timeout w :
  strlen s < IPSET_MAXNAMELEN ->
  exists k, (k <= fuel)%nat /\ (fuel <> 0%nat -> k <> 0%nat) /\
    sent_by w (new_add_mac_to_ipset be fuel (Some s) eth af timeout w)
      = repeat (wire_mac be s eth af) k.
Proof.
  intros H. unfold new_add_mac_to_ipset. rewrite (proj2 (name_check_passes s) H).
  apply transmit_sends. now apply new_add_mac_to_ipset_fill_wire.
Qed.

(** X1.  What new_add_to_ipset puts on the wire: command IPSET_CMD_DEL when
    [remove] is not 0 and IPSET_CMD_ADD when it is, the caller's family
    byte, protocol and set-name attributes, then the data frame holding the
    address frame holding the 4 address bytes, typed IPv4 when the family is
    AF_INET and IPv6 for any other family. *)
Theorem addr_wire_format be fuel s ip af remove w :
  strlen s < IPSET_MAXNAMELEN ->
  exists k, (k <= fuel)%nat /\ (fuel <> 0%nat -> k <> 0%nat) /\
    sent_by w (new_add_to_ipset be fuel (Some s) ip af remove w)
      = repeat (wire_addr be s ip af remove) k.
Proof.
  intros H. unfold new_add_to_ipset. rewrite (proj2 (name_check_passes s) H).
  apply transmit_sends.
  pose proof (new_add_to_ipset_fill_wire be s ip af remove H) as W.
  unfold bind. destruct (new_add_to_ipset_fill be s ip af remove zeroed) as [[r m]|f];
    [exact W | contradiction].
Qed.

(** X4.  add_to_ipset composed with the builders: a value accepted and parsed as
    an address is sent as the address message with family AF_INET and the
    command chosen by [flag]; a value accepted and parsed as a hardware
    address is sent as the hardware-address message, with IPSET_CMD_ADD. *)
Theorem apply_wire_format
  be is_valid_ip inet_aton is_valid_mac ether_aton fuel s val flag w :
  strlen s < IPSET_MAXNAMELEN ->
  (forall a, is_valid_ip val = true -> inet_aton val = Some a ->
     exists k, (k <= fuel)%nat /\ (fuel <> 0%nat -> k <> 0%nat) /\
       sent_by w (add_to_ipset be is_valid_ip inet_aton is_valid_mac ether_aton
                    fuel (Some s) val flag w)
         = repeat (wire_addr be s a AF_INET flag) k) /\
  (forall e, is_valid_ip val = false -> is_valid_mac val = true ->
     ether_aton val = Some e ->
     exists k, (k <= fuel)%nat /\ (fuel <> 0%nat -> k <> 0%nat) /\
       sent_by w (add_to_ipset be is_valid_ip inet_aton is_valid_mac ether_aton
                    fuel (Some s) val flag w)
         = repeat (wire_mac be s e AF_INET) k).
Proof.
  intros H. split.
  - intros a Hip Ha. unfold add_to_ipset. rewrite Hip, Ha.
    unfold new_add_to_ipset. rewrite (proj2 (name_check_passes s) H).
    apply transmit_sends.
    pose proof (new_add_to_ipset_fill_wire be s a AF_INET flag H) as W.
    unfold bind.
    destruct (new_add_to_ipset_fill be s a AF_INET flag zeroed) as [[r m]|f];
      [exact W | contradiction].
  - intros e Hip Hmac He. unfold add_to_ipset. rewrite Hip, Hmac, He.
    unfold new_add_mac_to_ipset. rewrite (proj2 (name_check_passes s) H).
    apply transmit_sends. now apply new_add_mac_to_ipset_fill_wire.
Qed.

(** X19.  An empty set name is not rejected: each of the three builders encodes
    it, as a set-name attribute holding only the terminating zero, and hands
    the message to the socket. *)
Theorem empty_set_name_is_sent be fuel ip eth af flag w :
  fuel <> 0%nat ->
  (exists k, k <> 0%nat /\
     sent_by w (new_add_to_ipset be fuel (Some []) ip af flag w)
       = repeat (wire_addr be [] ip af flag) k) /\
  (exists k, k <> 0%nat /\
     sent_by w (new_add_mac_to_ipset be fuel (Some []) eth af flag w)
       = repeat (wire_mac be [] eth af) k) /\
  (exists k, k <> 0%nat /\
     sent_by w (flush_ipset be fuel (Some []) w) = repeat (wire_flush be []) k) /\
  bytes_at (wire_flush be []) 28 8 = wire_attr be IPSET_ATTR_SETNAME [0].
Proof.
  intros Hf.
  assert (H : strlen [] < IPSET_MAXNAMELEN) by reflexivity.
  repeat split.
  - pose proof (new_add_to_ipset_fill_wire be [] ip af flag H) as W.
    destruct (transmit_sends be fuel
                ((new_add_to_ipset_fill be [] ip af flag ;;; ret tt) zeroed) w
                (wire_addr be [] ip af flag)) as (k & _ & Hk & E).
    + unfold bind.
      destruct (new_add_to_ipset_fill be [] ip af flag zeroed) as [[r m]|f];
        [exact W | contradiction].
    + exists k. split; [auto | exact E].
  - destruct (transmit_sends be fuel
                (new_add_mac_to_ipset_fill be [] eth af flag zeroed) w
                (wire_mac be [] eth af)) as (k & _ & Hk & E).
    + now apply new_add_mac_to_ipset_fill_wire.
    + exists k. split; [auto | exact E].
  - destruct (transmit_sends be fuel (flush_ipset_fill be [] zeroed) w
                (wire_flush be [])) as (k & _ & Hk & E).
    + now apply flush_ipset_fill_wire.
    + exists k. split; [auto | exact E].
  - destruct be; reflexivity.
Qed.

(** X17.  Every retry of one call resends the same bytes: whatever the arguments,
    the datagrams a call of add_to_ipset or of flush_ipset hands to the
    socket are copies of one message, at most one per loop iteration. *)
Theorem retries_resend_same_datagram
  be is_valid_ip inet_aton is_valid_mac ether_aton fuel setname val flag w :
  (exists d k, (k <= fuel)%nat /\
     sent_by w (add_to_ipset be is_valid_ip inet_aton is_valid_mac ether_aton
                  fuel setname val flag w) = repeat d k) /\
  (exists d k, (k <= fuel)%nat /\
     sent_by w (flush_ipset be fuel setname w) = repeat d k).
Proof.
  assert (Hnone : forall o, sent (world_of o) = sent w ->
            exists (d : list Z) k, (k <= fuel)%nat /\ sent_by w o = repeat d k).
  { intros o Ho. exists [], 0%nat. split; [lia | now apply sent_by_same]. }
  assert (Htr : forall r, exists (d : list Z) k, (k <= fuel)%nat /\
            sent_by w (transmit be fuel r w) = repeat d k).
  { intros r. pose proof (sent_by_transmit be fuel r w) as T.
    destruct r as [[u m]|f].
    - destruct T as (k & Hk & _ & E). eauto.
    - exists [], 0%nat. split; [lia | exact T]. }
  split.
  - unfold add_to_ipset.
    destruct (is_valid_ip val).
    + destruct (inet_aton val) as [a|]; [|now apply Hnone].
      unfold new_add_to_ipset. destruct setname as [s|]; [|now apply Hnone].
      destruct (strlen s >=? IPSET_MAXNAMELEN); [now apply Hnone | apply Htr].
    + destruct (is_valid_mac val); [|now apply Hnone].
      destruct (ether_aton val) as [e|]; [|now apply Hnone].
      unfold new_add_mac_to_ipset. destruct setname as [s|]; [|now apply Hnone].
      destruct (strlen s >=? IPSET_MAXNAMELEN); [now apply Hnone | apply Htr].
  - unfold flush_ipset. destruct setname as [s|]; [|now apply Hnone].
    destruct (strlen s >=? IPSET_MAXNAMELEN); [now apply Hnone | apply Htr].
Qed.

(** X18.  With a set name that is not null no entry point ever reads or writes
    outside the buffer or dereferences a null pointer, whatever the length
    of the name and the other arguments. *)
Theorem non_null_name_never_faults
  be is_valid_ip inet_aton is_valid_mac ether_aton fuel s val ip eth af flag w :
  forall f w',
    new_add_to_ipset be fuel (Some s) ip af flag w <> Crashes f w' /\
    new_add_mac_to_ipset be fuel (Some s) eth af flag w <> Crashes f w' /\
    flush_ipset be fuel (Some s) w <> Crashes f w' /\
    add_to_ipset be is_valid_ip inet_aton is_valid_mac ether_aton
      fuel (Some s) val flag w <> Crashes f w'.
Proof.
  intros f w'.
  assert (Ha : forall a af', new_add_to_ipset be fuel (Some s) a af' flag w
                             <> Crashes f w').
  { intros a af'. unfold new_add_to_ipset.
    destruct (strlen s >=? IPSET_MAXNAMELEN) eqn:Hc; [discriminate|].
    apply name_check_passes in Hc.
    pose proof (new_add_to_ipset_fill_spec be s a af' flag Hc) as S.
    unfold bind.
    destruct (new_add_to_ipset_fill be s a af' flag zeroed) as [[r m]|f0];
      [|contradiction].
    apply finish_not_crash. }
  assert (Hm : forall e af', new_add_mac_to_ipset be fuel (Some s) e af' flag w
                             <> Crashes f w').
  { intros e af'. unfold new_add_mac_to_ipset.
    destruct (strlen s >=? IPSET_MAXNAMELEN) eqn:Hc; [discriminate|].
    apply name_check_passes in Hc.
    pose proof (new_add_mac_to_ipset_fill_spec be s e af' flag Hc) as S.
    destruct (new_add_mac_to_ipset_fill be s e af' flag zeroed) as [[r m]|f0];
      [|contradiction].
    apply finish_not_crash. }
  repeat split; auto.
  - unfold flush_ipset.
    destruct (strlen s >=? IPSET_MAXNAMELEN) eqn:Hc; [discriminate|].
    apply name_check_passes in Hc.
    pose proof (flush_ipset_fill_spec be s Hc) as S.
    destruct (flush_ipset_fill be s zeroed) as [[r m]|f0]; [|contradiction].
    apply finish_not_crash.
  - unfold add_to_ipset.
    destruct (is_valid_ip val).
    + destruct (inet_aton val); [apply Ha | discriminate].
    + destruct (is_valid_mac val); [|discriminate].
      destruct (ether_aton val); [apply Hm | discriminate].
Qed.

(** ** add_to_ipset (ipset.c:257-277) *)

(** X21.  A value that a validator accepts but its parser refuses makes
    add_to_ipset return -1 with the process state untouched: errno is not
    set and nothing is sent, not even for a null set name. *)
Theorem unparsable_value_rejected
  be is_valid_ip inet_aton is_valid_mac ether_aton fuel setname val flag w :
  (is_valid_ip val = true -> inet_aton val = None ->
   add_to_ipset be is_valid_ip inet_aton is_valid_mac ether_aton
     fuel setname val flag w = Returns (-1) w) /\
  (is_valid_ip val = false -> is_valid_mac val = true -> ether_aton val = None ->
   add_to_ipset be is_valid_ip inet_aton is_valid_mac ether_aton
     fuel setname val flag w = Returns (-1) w).
Proof.
  unfold add_to_ipset. split.
  - intros -> ->. reflexivity.
  - intros -> -> ->. reflexivity.
Qed.

(** X20.  For a hardware-address value the flag makes no difference: a call that
    asks for removal does exactly what a call that asks for addition does. *)
Theorem mac_value_ignores_flag
  be is_valid_ip inet_aton is_valid_mac ether_aton fuel setname val flag flag' w :
  is_valid_ip val = false -> is_valid_mac val = true ->
  add_to_ipset be is_valid_ip inet_aton is_valid_mac ether_aton
    fuel setname val flag w
  = add_to_ipset be is_valid_ip inet_aton is_valid_mac ether_aton
      fuel setname val flag' w.
Proof. intros Hip Hmac. unfold add_to_ipset. rewrite Hip, Hmac. reflexivity. Qed.


(** ** The process state across calls *)

Lemma absorbed_from n : forall fuel b len w,
  0 <= len -> 0 <= retries w -> retries w + Z.of_nat n <= 1000 ->
  (forall i, (i < n)%nat -> send_env w (length (sent w) + i) = Some EWOULDBLOCK) ->
  send_env w (length (sent w) + n) = None ->
  (n < fuel)%nat ->
  exists w',
    send_loop fuel b len w = Done w' /\
    sent w' = sent w ++ repeat (firstn (Z.to_nat len) b) (S n) /\
    errno w' = 0 /\ retries w' = 0 /\ nsleep w' = (nsleep w + n)%nat.
Proof.
  induction n as [|n IH]; intros fuel b len w Hlen Hr0 Hr Hblk Hacc Hf;
    (destruct fuel as [|fuel]; [lia|]); rewrite send_loop_step; unfold sendto.
  - rewrite Nat.add_0_r in Hacc. rewrite Hacc. cbn [fst snd].
    unfold retry_send. destruct (Z.eqb_spec len (-1)) as [E|_]; [lia|].
    cbn. eexists. split; [reflexivity|]. cbn. repeat split. lia.
  - rewrite <- (Nat.add_0_r (length (sent w))), (Hblk 0%nat) by lia.
    cbn [fst snd]. unfold retry_send, nanosleep.
    cbn -[Z.ltb Z.add Z.of_nat].
    destruct (Z.ltb_spec (retries w) 1000) as [_|]; [|lia].
    cbn -[Z.add Z.of_nat].
    match goal with
    | |- context [send_loop fuel b len ?w1] =>
        destruct (IH fuel b len w1) as (w' & E & Hs & He & Hr' & Hn);
        [ assumption
        | unfold set_retries; cbn [retries]; lia
        | unfold set_retries; cbn [retries]; lia
        | | | lia | ]
    end.
    + unfold set_retries. cbn [sent send_env]. intros i Hi.
      rewrite length_app. cbn [length].
      replace (length (sent w) + 1 + i)%nat with (length (sent w) + S i)%nat by lia.
      apply Hblk. lia.
    + unfold set_retries. cbn [sent send_env].
      rewrite length_app. cbn [length].
      replace (length (sent w) + 1 + n)%nat with (length (sent w) + S n)%nat by lia.
      exact Hacc.
    + exists w'. split; [exact E|].
      unfold set_retries in Hs, Hn. cbn [sent nsleep] in Hs, Hn.
      rewrite Hs, <- app_assoc. repeat split; auto. lia.
Qed.

(** X11.  Transient backpressure is absorbed: a send that would block up to 1000
    times and is then accepted succeeds, after one sleep per refusal,
    however those sleeps end; the 1001st attempt is the last one that can
    still succeed. *)
Theorem transient_backpressure_absorbed n fuel b len w :
  0 <= len -> retries w = 0 -> (n <= 1000)%nat ->
  (forall i, (i < n)%nat -> send_env w (length (sent w) + i) = Some EWOULDBLOCK) ->
  send_env w (length (sent w) + n) = None ->
  (n < fuel)%nat ->
  exists w',
    send_loop fuel b len w = Done w' /\
    sent w' = sent w ++ repeat (firstn (Z.to_nat len) b) (S n) /\
    errno w' = 0 /\ retries w' = 0 /\ nsleep w' = (nsleep w + n)%nat /\
    finish (send_loop fuel b len w) = Returns 0 w'.
Proof.
  intros Hlen Hr Hn Hblk Hacc Hf.
  destruct (absorbed_from n fuel b len w) as (w' & E & Hs & He & Hr' & Hsl);
    auto; try lia.
  exists w'. rewrite E. cbn [finish]. rewrite He. repeat split; auto.
Qed.

Lemma transmit_returns_resets be fuel r w rc w' :
  retries w = 0 -> transmit be fuel r w = Returns rc w' -> retries w' = 0.
Proof.
  intros Hr. destruct r as [[u m]|f]; cbn [transmit]; [|discriminate].
  destruct (send_loop fuel (buf m) (nlmsg_len be (buf m)) w) as [w1|w1] eqn:E;
    cbn [finish]; [|discriminate].
  intros [= _ <-]. eapply send_loop_done_resets; eauto.
Qed.

(** X16.  The retry counter is 0 between calls: if it is 0 when add_to_ipset or
    flush_ipset is called, it is 0 again when the call returns, whatever it
    returns. *)
Theorem retries_zero_between_calls
  be is_valid_ip inet_aton is_valid_mac ether_aton fuel setname val flag w rc w' :
  retries w = 0 ->
  (add_to_ipset be is_valid_ip inet_aton is_valid_mac ether_aton
     fuel setname val flag w = Returns rc w' -> retries w' = 0) /\
  (flush_ipset be fuel setname w = Returns rc w' -> retries w' = 0).
Proof.
  intros Hr.
  assert (Hsame : Returns (-1) w = Returns rc w' -> retries w' = 0)
    by (intros [= _ <-]; exact Hr).
  assert (Hlong : Returns (-1) (set_errno ENAMETOOLONG w) = Returns rc w' ->
                  retries w' = 0) by (intros [= _ <-]; exact Hr).
  split.
  - unfold add_to_ipset. destruct (is_valid_ip val).
    + destruct (inet_aton val) as [a|]; [|exact Hsame].
      unfold new_add_to_ipset. destruct setname as [s|]; [|discriminate].
      destruct (strlen s >=? IPSET_MAXNAMELEN); [exact Hlong|].
      now apply transmit_returns_resets.
    + destruct (is_valid_mac val); [|exact Hsame].
      destruct (ether_aton val) as [e|]; [|exact Hsame].
      unfold new_add_mac_to_ipset. destruct setname as [s|]; [|discriminate].
      destruct (strlen s >=? IPSET_MAXNAMELEN); [exact Hlong|].
      now apply transmit_returns_resets.
  - unfold flush_ipset. destruct setname as [s|]; [|exact Hlong].
    destruct (strlen s >=? IPSET_MAXNAMELEN); [exact Hlong|].
    now apply transmit_returns_resets.
Qed.

(** ** ipset_init (ipset.c:129-136) *)

(** X22.  ipset_init returns 1 exactly when both socket and bind succeed, and 0
    otherwise; bind is attempted only after socket has succeeded, on the
    descriptor socket returned; and ipset_sock holds what socket returned
    even when the call fails, so a descriptor whose bind failed stays open. *)
Theorem ipset_init_result socket_rc bind_rc :
  let r := ipset_init socket_rc bind_rc in
  (init_rc r = 1 <-> socket_rc <> -1 /\ bind_rc socket_rc <> -1) /\
  (init_rc r = 0 <-> socket_rc = -1 \/ bind_rc socket_rc = -1) /\
  (socket_rc = -1 -> init_calls r = [sys_socket]) /\
  (socket_rc <> -1 -> init_calls r = [sys_socket; sys_bind socket_rc]) /\
  init_sock r = socket_rc.
Proof.
  unfold ipset_init.
  destruct (Z.eqb_spec socket_rc (-1)) as [Hs|Hs]; cbn [negb].
  - cbn. repeat split; try tauto; try discriminate; intros; tauto.
  - destruct (Z.eqb_spec (bind_rc socket_rc) (-1)) as [Hb|Hb]; cbn;
      repeat split; try tauto; try discriminate; intros; tauto.
Qed.

(** * The further properties at sample inputs *)

Lemma NL_ALIGN_least_multiple_witness :
  NL_ALIGN 32 5 mod 4 = 0 /\
  5 <= NL_ALIGN 32 5 /\
  (forall y, y mod 4 = 0 -> 5 <= y -> NL_ALIGN 32 5 <= y) /\
  NL_ALIGN 32 (NL_ALIGN 32 5) = NL_ALIGN 32 5.
Proof. apply (NL_ALIGN_least_multiple 32 5); lia. Defined.


Lemma add_attr_writes_only_attribute_witness :
  exists m',
    add_attr false IPSET_ATTR_SETNAME 10 (ex_setname ++ [0]) (ex_headers false)
      = Ok (tt, m') /\
    field false 2 (buf m')
      (NL_ALIGN 32 (nlmsg_len false (buf (ex_headers false))) + off_nla_type)
      = wrap 16 IPSET_ATTR_SETNAME /\
    bytes_at (buf m')
      (Z.to_nat (NL_ALIGN 32 (nlmsg_len false (buf (ex_headers false)))
                 + sizeof_my_nlattr)) (Z.to_nat 10)
      = firstn (Z.to_nat 10) (ex_setname ++ [0]) /\
    (forall i,
       4 <= i < NL_ALIGN 32 (nlmsg_len false (buf (ex_headers false))) \/
       NL_ALIGN 32 (nlmsg_len false (buf (ex_headers false)))
         + sizeof_my_nlattr + 10 <= i ->
       nth (Z.to_nat i) (buf m') 0 = nth (Z.to_nat i) (buf (ex_headers false)) 0).
Proof.
  apply (add_attr_writes_only_attribute false IPSET_ATTR_SETNAME 10
           (ex_setname ++ [0]) (ex_headers false)).
  - reflexivity.
  - vm_compute. discriminate.
  - vm_compute. discriminate.
  - vm_compute. split; discriminate.
Defined.

Lemma add_attr_overruns_witness :
  add_attr false IPSET_ATTR_PROTOCOL 1 [IPSET_PROTOCOL] (ex_nearly_full false)
    = Fault BufferOverrun.
Proof.
  apply (add_attr_overruns false IPSET_ATTR_PROTOCOL 1 [IPSET_PROTOCOL]
           (ex_nearly_full false)).
  - reflexivity.
  - vm_compute. split; discriminate.
  - vm_compute. reflexivity.
Defined.

Lemma interrupted_sends_are_retried_witness :
  exists w',
    send_loop 10 (buf zeroed) 20 ex_kernel_interrupts_3 = Done w' /\
    sent w' = sent ex_kernel_interrupts_3
              ++ repeat (firstn (Z.to_nat 20) (buf zeroed)) 4 /\
    errno w' = 0 /\ retries w' = 0 /\ nsleep w' = nsleep ex_kernel_interrupts_3.
Proof.
  apply (interrupted_sends_are_retried 3 10 (buf zeroed) 20 ex_kernel_interrupts_3).
  - discriminate.
  - intros i Hi. destruct i as [|[|[|i]]]; try reflexivity. lia.
  - reflexivity.
  - lia.
Defined.

Lemma always_interrupted_never_exits_witness :
  exists w',
    send_loop 50 (buf zeroed) 20 ex_kernel_interrupts = More w' /\
    sent w' = sent ex_kernel_interrupts
              ++ repeat (firstn (Z.to_nat 20) (buf zeroed)) 50.
Proof.
  apply (always_interrupted_never_exits 50 (buf zeroed) 20 ex_kernel_interrupts).
  intros k. reflexivity.
Defined.

Lemma other_error_is_final_witness :
  exists w',
    send_loop 10 (buf zeroed) 20 ex_kernel_refuses = Done w' /\
    sent w' = sent ex_kernel_refuses ++ [firstn (Z.to_nat 20) (buf zeroed)] /\
    errno w' = 1 /\ retries w' = 0 /\ nsleep w' = nsleep ex_kernel_refuses /\
    finish (send_loop 10 (buf zeroed) 20 ex_kernel_refuses) = Returns (-1) w'.
Proof.
  apply (other_error_is_final 9 (buf zeroed) 20 ex_kernel_refuses 1);
    try reflexivity; discriminate.
Defined.

Lemma interrupted_sleep_defeats_limit_witness :
  exists w',
    send_loop 1500 (buf zeroed) 20 ex_kernel_busy_signals = More w' /\
    sent w' = sent ex_kernel_busy_signals
              ++ repeat (firstn (Z.to_nat 20) (buf zeroed)) 1500.
Proof.
  apply (interrupted_sleep_defeats_limit 1500 (buf zeroed) 20 ex_kernel_busy_signals);
    intros k; reflexivity.
Defined.

Lemma send_loop_bounded_witness :
  exists w' k,
    send_loop 1001 (buf zeroed) 20 ex_kernel_busy = Done w' /\
    sent w' = sent ex_kernel_busy ++ repeat (firstn (Z.to_nat 20) (buf zeroed)) k /\
    (1 <= k <= 1001)%nat /\ retries w' = 0.
Proof.
  apply (send_loop_bounded 1001 (buf zeroed) 20 ex_kernel_busy).
  - discriminate.
  - intros k. discriminate.
  - intros k. discriminate.
  - reflexivity.
  - apply le_n.
Defined.

Lemma return_value_reports_last_send_witness :
  exists k,
    sent (mkWorld 0 0 [[]] 0 (send_env ex_kernel_accepts)
                  (sleep_env ex_kernel_accepts))
      = sent ex_kernel_accepts ++ repeat (firstn (Z.to_nat 0) []) (S k) /\
    (send_env ex_kernel_accepts (length (sent ex_kernel_accepts) + k) = None ->
     finish (Done (mkWorld 0 0 [[]] 0 (send_env ex_kernel_accepts)
                           (sleep_env ex_kernel_accepts)))
     = Returns 0 (mkWorld 0 0 [[]] 0 (send_env ex_kernel_accepts)
                          (sleep_env ex_kernel_accepts))) /\
    (send_env ex_kernel_accepts (length (sent ex_kernel_accepts) + k) <> None ->
     finish (Done (mkWorld 0 0 [[]] 0 (send_env ex_kernel_accepts)
                           (sleep_env ex_kernel_accepts)))
     = Returns (-1) (mkWorld 0 0 [[]] 0 (send_env ex_kernel_accepts)
                             (sleep_env ex_kernel_accepts))).
Proof.
  apply (return_value_reports_last_send 1 [] 0 ex_kernel_accepts).
  - discriminate.
  - intros k. discriminate.
  - intros k. discriminate.
  - reflexivity.
Defined.

Lemma transient_backpressure_absorbed_witness :
  exists w',
    send_loop 10 (buf zeroed) 20 ex_kernel_busy_2 = Done w' /\
    sent w' = sent ex_kernel_busy_2 ++ repeat (firstn (Z.to_nat 20) (buf zeroed)) 3 /\
    errno w' = 0 /\ retries w' = 0 /\ nsleep w' = (nsleep ex_kernel_busy_2 + 2)%nat /\
    finish (send_loop 10 (buf zeroed) 20 ex_kernel_busy_2) = Returns 0 w'.
Proof.
  apply (transient_backpressure_absorbed 2 10 (buf zeroed) 20 ex_kernel_busy_2).
  - discriminate.
  - reflexivity.
  - lia.
  - intros i Hi. destruct i as [|[|i]]; try reflexivity. lia.
  - reflexivity.
  - lia.
Defined.

Lemma flush_wire_format_witness :
  exists k, (k <= 1)%nat /\ (1%nat <> 0%nat -> k <> 0%nat) /\
    sent_by ex_kernel_accepts (flush_ipset false 1 (Some ex_setname) ex_kernel_accepts)
      = repeat (wire_flush false ex_setname) k.
Proof.
  apply (flush_wire_format false 1 ex_setname ex_kernel_accepts).
  vm_compute. reflexivity.
Defined.

Lemma mac_wire_format_witness :
  exists k, (k <= 1)%nat /\ (1%nat <> 0%nat -> k <> 0%nat) /\
    sent_by ex_kernel_accepts
      (new_add_mac_to_ipset false 1 (Some ex_setname) ex_ether_addr AF_INET 0
         ex_kernel_accepts)
      = repeat (wire_mac false ex_setname ex_ether_addr AF_INET) k.
Proof.
  apply (mac_wire_format false 1 ex_setname ex_ether_addr AF_INET 0 ex_kernel_accepts).
  vm_compute. reflexivity.
Defined.

Lemma addr_wire_format_witness :
  exists k, (k <= 1)%nat /\ (1%nat <> 0%nat -> k <> 0%nat) /\
    sent_by ex_kernel_accepts
      (new_add_to_ipset true 1 (Some ex_setname) ex_in_addr AF_INET 1
         ex_kernel_accepts)
      = repeat (wire_addr true ex_setname ex_in_addr AF_INET 1) k.
Proof.
  apply (addr_wire_format true 1 ex_setname ex_in_addr AF_INET 1 ex_kernel_accepts).
  vm_compute. reflexivity.
Defined.

Lemma apply_wire_format_witness :
  (exists k, (k <= 1)%nat /\ (1%nat <> 0%nat -> k <> 0%nat) /\
     sent_by ex_kernel_accepts
       (add_to_ipset false ex_is_valid_ip ex_inet_aton ex_is_valid_mac ex_ether_aton
          1 (Some ex_setname) ex_ip_text 1 ex_kernel_accepts)
     = repeat (wire_addr false ex_setname ex_in_addr AF_INET 1) k) /\
  (exists k, (k <= 1)%nat /\ (1%nat <> 0%nat -> k <> 0%nat) /\
     sent_by ex_kernel_accepts
       (add_to_ipset false ex_is_valid_ip ex_inet_aton ex_is_valid_mac ex_ether_aton
          1 (Some ex_setname) ex_mac_text 1 ex_kernel_accepts)
     = repeat (wire_mac false ex_setname ex_ether_addr AF_INET) k).
Proof.
  assert (H : strlen ex_setname < IPSET_MAXNAMELEN) by (vm_compute; reflexivity).
  split.
  - apply (proj1 (apply_wire_format false ex_is_valid_ip ex_inet_aton ex_is_valid_mac
                    ex_ether_aton 1 ex_setname ex_ip_text 1 ex_kernel_accepts H));
      reflexivity.
  - apply (proj2 (apply_wire_format false ex_is_valid_ip ex_inet_aton ex_is_valid_mac
                    ex_ether_aton 1 ex_setname ex_mac_text 1 ex_kernel_accepts H));
      reflexivity.
Defined.

Lemma empty_set_name_is_sent_witness :
  exists k, k <> 0%nat /\
    sent_by ex_kernel_accepts (flush_ipset false 1 (Some []) ex_kernel_accepts)
      = repeat (wire_flush false []) k.
Proof.
  apply (empty_set_name_is_sent false 1 ex_in_addr ex_ether_addr AF_INET 0
           ex_kernel_accepts).
  discriminate.
Defined.

Lemma unparsable_value_rejected_witness :
  add_to_ipset false (fun _ => true) (fun _ => None) ex_is_valid_mac ex_ether_aton
    1 None ex_ip_text 0 ex_kernel_accepts = Returns (-1) ex_kernel_accepts /\
  add_to_ipset false ex_is_valid_ip ex_inet_aton (fun _ => true) (fun _ => None)
    1 None ex_junk_text 0 ex_kernel_accepts = Returns (-1) ex_kernel_accepts.
Proof.
  split.
  - apply (proj1 (unparsable_value_rejected false (fun _ => true) (fun _ => None)
                    ex_is_valid_mac ex_ether_aton 1 None ex_ip_text 0
                    ex_kernel_accepts)); reflexivity.
  - apply (proj2 (unparsable_value_rejected false ex_is_valid_ip ex_inet_aton
                    (fun _ => true) (fun _ => None) 1 None ex_junk_text 0
                    ex_kernel_accepts)); reflexivity.
Defined.

Lemma mac_value_ignores_flag_witness :
  add_to_ipset false ex_is_valid_ip ex_inet_aton ex_is_valid_mac ex_ether_aton
    1 (Some ex_setname) ex_mac_text 0 ex_kernel_accepts
  = add_to_ipset false ex_is_valid_ip ex_inet_aton ex_is_valid_mac ex_ether_aton
      1 (Some ex_setname) ex_mac_text 1 ex_kernel_accepts.
Proof.
  apply (mac_value_ignores_flag false ex_is_valid_ip ex_inet_aton ex_is_valid_mac
           ex_ether_aton 1 (Some ex_setname) ex_mac_text 0 1 ex_kernel_accepts);
    reflexivity.
Defined.

Lemma retries_zero_between_calls_witness :
  retries (mkWorld 0 0 [wire_flush false ex_setname] 0
             (send_env ex_kernel_accepts) (sleep_env ex_kernel_accepts)) = 0.
Proof.
  apply (proj2 (retries_zero_between_calls false ex_is_valid_ip ex_inet_aton
                  ex_is_valid_mac ex_ether_aton 1 (Some ex_setname) ex_ip_text 0
                  ex_kernel_accepts 0
                  (mkWorld 0 0 [wire_flush false ex_setname] 0
                     (send_env ex_kernel_accepts) (sleep_env ex_kernel_accepts))
                  eq_refl)).
  reflexivity.
Defined.

Lemma ipset_init_result_witness :
  (init_rc (ipset_init 3 (fun _ => 0)) = 1 /\
   init_calls (ipset_init 3 (fun _ => 0)) = [sys_socket; sys_bind 3]) /\
  (init_rc (ipset_init (-1) (fun _ => 0)) = 0 /\
   init_calls (ipset_init (-1) (fun _ => 0)) = [sys_socket]) /\
  (init_rc (ipset_init 3 (fun _ => -1)) = 0 /\
   init_sock (ipset_init 3 (fun _ => -1)) = 3).
Proof.
  destruct (ipset_init_result 3 (fun _ => 0)) as (H1 & _ & _ & H4 & _).
  destruct (ipset_init_result (-1) (fun _ => 0)) as (_ & G2 & G3 & _ & _).
  destruct (ipset_init_result 3 (fun _ => -1)) as (_ & K2 & _ & _ & K5).
  split; [split | split; split].
  - apply H1. split; discriminate.
  - apply H4. discriminate.
  - apply G2. left. reflexivity.
  - apply G3. reflexivity.
  - apply K2. right. reflexivity.
  - exact K5.
Defined.
